(** * Batch calculator agent

    A shallow embedding of
    [examples/batch_processing/batch_calculator_agent.py]: the request
    builder, the calculator behind the [calculate] tool, the dispatcher that
    turns a tool-use message into a result string, and the polling loop that
    collects the results of a batch.

    The model follows the code statement by statement. What belongs to the
    interpreter and the service is kept at their documented behaviour:
    numbers are Python [int]s (unbounded) and [float]s (binary64, rounding
    to nearest even), [sum] adds from left to right starting from the
    integer 0 (where an interpreter sums floats otherwise, the calculator
    is also given over any builtin [sum]), the text of a float is a
    parameter ([float_repr]), the answers of the batch service are the
    input of the loop. Printing to
    standard output and the pause between two polls change no variable and
    are left out. *)

From Stdlib Require Import ZArith List String Ascii Lia Bool Floats DecimalString.
From Stdlib Require DecimalPos DecimalZ.
From stdpp Require Import base gmap strings.
Import ListNotations.
Local Open Scope Z_scope.

(** ** The part of the Python runtime the agent relies on *)

Module Py.

(** The exceptions the calculator can raise, all subclasses of [Exception]. *)
Inductive exn : Type :=
| ValueError (msg : string)
| KeyError (key : string)
| IndexError (msg : string)
| ZeroDivisionError (msg : string)
| OverflowError (msg : string).

(** [str(e)]: the message, except for [KeyError], which shows the [repr] of
    the missing key (the keys looked up here are plain identifiers). *)
Definition str_exn (e : exn) : string :=
match e with
| KeyError key => ("'" ++ key ++ "'")%string
| ValueError msg | IndexError msg | ZeroDivisionError msg | OverflowError msg => msg
end.

(** An evaluation either yields a value or raises. *)
Inductive res (A : Type) : Type :=
| Ok (a : A)
| Raise (e : exn).
Arguments Ok {A} a.
Arguments Raise {A} e.

Definition bind {A B : Type} (m : res A) (k : A -> res B) : res B :=
match m with
| Ok a => k a
| Raise e => Raise e
end.

Notation "'do' x <- m ; k" := (bind m (fun x => k))
(at level 10, x name, m at level 100, k at level 200).

(** A JSON number as Python decodes it: an unbounded [int] or a binary64
    [float]. *)
Inductive num : Type :=
| PInt (z : Z)
| PFloat (f : float).

Definition is_float (x : num) : bool :=
match x with
| PInt _ => false
| PFloat _ => true
end.

(** [x == 0]: the integer zero or a float zero of either sign. *)
Definition is_zero (x : num) : bool :=
match x with
| PInt z => z =? 0
| PFloat f => (f =? 0)%float
end.

(** [float(z)]: the nearest binary64 value, ties to even; a magnitude that
    rounds beyond the largest finite float raises. *)
Definition float_of_int (z : Z) : res float :=
match binary_normalize prec emax z 0 false with
| S754_infinity _ => Raise (OverflowError "int too large to convert to float")
| sf => Ok (SF2Prim sf)
end.

Definition to_double (x : num) : res float :=
match x with
| PInt z => float_of_int z
| PFloat f => Ok f
end.

(** An arithmetic operator with at least one [float] operand converts both
    operands to doubles, left operand first. *)
Definition float_binop (op : float -> float -> float) (x y : num) : res num :=
do a <- to_double x;
do b <- to_double y;
Ok (PFloat (op a b)).

(** [x + y], [x - y], [x * y] *)
Definition add (x y : num) : res num :=
match x, y with
| PInt a, PInt b => Ok (PInt (a + b))
| _, _ => float_binop PrimFloat.add x y
end.

Definition sub (x y : num) : res num :=
match x, y with
| PInt a, PInt b => Ok (PInt (a - b))
| _, _ => float_binop PrimFloat.sub x y
end.

Definition mul (x y : num) : res num :=
match x, y with
| PInt a, PInt b => Ok (PInt (a * b))
| _, _ => float_binop PrimFloat.mul x y
end.

(** The correctly rounded quotient of two integers, the divisor not zero. *)
Definition int_true_divide (a b : Z) : spec_float :=
let negate := xorb (a <? 0) (b <? 0) in
match a with
| Z0 => S754_zero negate
| _ =>
    let '(mz, ez, lz) := SFdiv_core_binary prec emax (Z.abs a) 0 (Z.abs b) 0 in
    binary_round_aux prec emax negate mz ez lz
end.

(** [x / y]: true division, always a [float]; a zero divisor raises. *)
Definition truediv (x y : num) : res num :=
match x, y with
| PInt a, PInt b =>
    if b =? 0 then Raise (ZeroDivisionError "division by zero")
    else
      match int_true_divide a b with
      | S754_infinity _ =>
          Raise (OverflowError "integer division result too large for a float")
      | sf => Ok (PFloat (SF2Prim sf))
      end
| _, _ =>
    do a <- to_double x;
    do b <- to_double y;
    if (b =? 0)%float then Raise (ZeroDivisionError "float division by zero")
    else Ok (PFloat (a / b))
end.

(** [for num in nums: result = body(result, num)], the loop leaving at the
    first exception. *)
Fixpoint for_each (body : num -> num -> res num) (result : num) (nums : list num)
: res num :=
match nums with
| [] => Ok result
| num :: nums' => do result' <- body result num; for_each body result' nums'
end.

(** The builtin [sum(numbers)] as the language reference words it:
    starting from the integer [0], the items are added from left to right.
    This is what CPython up to 3.11 computes. From 3.12 on CPython carries
    a compensation term when it sums floats, which can change the last
    place of a sum of three or more floats; on integers, in the kind of
    the result and in the exceptions the two do not differ. What is
    stated about sums of floats is stated for any builtin (see
    [perform_calculation_with]). *)
Definition sum (numbers : list num) : res num := for_each add (PInt 0) numbers.

(** [numbers[0]] *)
Definition getitem0 (numbers : list num) : res num :=
match numbers with
| [] => Raise (IndexError "list index out of range")
| x :: _ => Ok x
end.

(** [numbers[1:]] *)
Definition slice1 (numbers : list num) : list num := List.tl numbers.

(** [d[key]] for a key that is present ([Some]) or absent ([None]). *)
Definition getitem {A : Type} (key : string) (field : option A) : res A :=
match field with
| Some v => Ok v
| None => Raise (KeyError key)
end.

(** [str(z)] for an [int]: its decimal digits. Interpreters with a limit on
    the digits of this conversion (4300 by default, never less than 640)
    raise a [ValueError] beyond it instead; what is stated about the text
    of an integer is stated up to 640 digits (see [prints_everywhere]). *)
Definition str_int (z : Z) : string := NilZero.string_of_int (Z.to_int z).

(** [str(x)] for a number. The text of a [float] is the interpreter's
    shortest round-trip rendering, taken as the parameter [float_repr]. *)
Definition str_num (float_repr : float -> string) (x : num) : string :=
match x with
| PInt z => str_int z
| PFloat f => float_repr f
end.

End Py.

Import Py.

(** ** The agent *)

Definition _perform_calculation (operation : string) (numbers : list num) : res num :=
  if String.eqb operation "add" then
    sum numbers
  else if String.eqb operation "subtract" then
    do first <- getitem0 numbers;
    do rest <- sum (slice1 numbers);
    sub first rest
  else if String.eqb operation "multiply" then
    for_each mul (PInt 1) numbers
  else if String.eqb operation "divide" then
    do result <- getitem0 numbers;
    for_each truediv result (slice1 numbers)
  else
    Raise (ValueError ("Unsupported operation: " ++ operation)).


(** *** Request builder *)

(** A JSON document, for the tool schema handed to the service. *)
#[local] Set Warnings "-register-all".
Inductive json : Type :=
| JString (s : string)
| JArray (items : list json)
| JObject (fields : list (string * json)).

Definition _define_calculator_tool : json :=
  JObject
    [ ("name", JString "calculate");
      ("description", JString "A simple calculator that can perform basic math operations");
      ("input_schema",
        JObject
          [ ("type", JString "object");
            ("properties",
              JObject
                [ ("operation",
                    JObject
                      [ ("type", JString "string");
                        ("enum", JArray [JString "add"; JString "subtract";
                                         JString "multiply"; JString "divide"]);
                        ("description", JString "The math operation to perform") ]);
                  ("numbers",
                    JObject
                      [ ("type", JString "array");
                        ("items", JObject [("type", JString "number")]);
                        ("description", JString "The numbers to perform the operation on") ]) ]);
            ("required", JArray [JString "operation"; JString "numbers"]) ]) ]%string.

(** The agent object; its client is the remote service and has no state the
    agent reads. *)
Record agent : Type := { calculator_tool : json }.

(** [__init__] *)
Definition init : agent := {| calculator_tool := _define_calculator_tool |}.

Module Request.
Record message_param : Type := { role : string; content : string }.

Record params : Type :=
  { model : string;
    max_tokens : Z;
    tools : list json;
    system : string;
    messages : list message_param }.

Record t : Type := { custom_id : string; params_of : params }.
End Request.

Definition system_prompt : string := "
        You are a helpful calculator assistant. When users ask you to perform calculations, 
        use the calculate tool directly without explaining what you're going to do first.
        ".

(** [enumerate(l)], counting from [start]. *)
Fixpoint enumerate_from {A : Type} (start : nat) (l : list A) : list (nat * A) :=
  match l with
  | [] => []
  | x :: l' => (start, x) :: enumerate_from (S start) l'
  end.

Definition enumerate {A : Type} (l : list A) : list (nat * A) := enumerate_from 0 l.

Definition _create_batch_requests (self : agent) (questions : list string)
  : list Request.t :=
  map (fun '(i, question) =>
         {| Request.custom_id := "calculation_" ++ str_int (Z.of_nat i);
            Request.params_of :=
              {| Request.model := "claude-3-5-sonnet-20241022";
                 Request.max_tokens := 1024;
                 Request.tools := [calculator_tool self];
                 Request.system := system_prompt;
                 Request.messages :=
                   [{| Request.role := "user"; Request.content := question |}] |} |})
      (enumerate questions).

(** *** Tool dispatcher *)

Module Msg.
(** The [input] dict of a tool-use block, as far as the dispatcher reads
    it: each of the two keys is absent or holds a value of the declared
    type. *)
Record tool_input : Type :=
  { operation : option string;
    numbers : option (list num) }.

Record content_block : Type :=
  { type : string;
    name : string;
    input : tool_input }.

(** [content] is [None] for an object without that attribute. *)
Record message : Type := { content : option (list content_block) }.
End Msg.

(** The [try] statement of [_process_tool_use]: the two lookups, the call and
    the formatting of its outcome. The [print] calls only write to standard
    output and are left out. *)
Definition try_calculation (float_repr : float -> string) (content : Msg.content_block)
  : string :=
  match
    (do operation <- getitem "operation" (Msg.operation (Msg.input content));
     do numbers <- getitem "numbers" (Msg.numbers (Msg.input content));
     _perform_calculation operation numbers)
  with
  | Ok result => "Result: " ++ str_num float_repr result
  | Raise e => "Error during calculation: " ++ str_exn e
  end.

(** [for content in message.content: ...], falling through to the final
    [return]. *)
Fixpoint scan_content (float_repr : float -> string) (blocks : list Msg.content_block)
  : string :=
  match blocks with
  | [] => "No tool use found in message"
  | content :: blocks' =>
      if String.eqb (Msg.type content) "tool_use" then try_calculation float_repr content
      else scan_content float_repr blocks'
  end.

Definition _process_tool_use (float_repr : float -> string) (message : Msg.message)
  : string :=
  match Msg.content message with
  | None => "Error: No content in message"
  | Some blocks => scan_content float_repr blocks
  end.

(** *** Batch monitor *)

Module Batch.
(** [result.result]: [message] is read for a succeeded result only. *)
Record outcome : Type := { type : string; message : Msg.message }.

(** One item of [batches.results(batch_id)]. *)
Record entry : Type := { custom_id : string; result : outcome }.

(** What one iteration of the loop sees of the service: the status that
    [batches.retrieve] reports, and the results that [batches.results]
    enumerates if it is asked. *)
Record poll : Type := { processing_status : string; results : list entry }.
End Batch.

(** The two local variables of [_monitor_batch_progress]. *)
Record monitor_state : Type :=
  { results : gmap string string;
    processed_count : Z }.

Definition monitor_init : monitor_state := {| results := ∅; processed_count := 0 |}.

(** The body of [for result in ...results(batch_id)]. *)
Definition record_result (float_repr : float -> string) (st : monitor_state)
  (result : Batch.entry) : monitor_state :=
  if bool_decide (results st !! Batch.custom_id result = None)
     && String.eqb (Batch.type (Batch.result result)) "succeeded"
  then
    let final_response := _process_tool_use float_repr (Batch.message (Batch.result result)) in
    {| results := <[Batch.custom_id result := final_response]> (results st);
       processed_count := processed_count st + 1 |}
  else st.

(** One iteration of the [while] loop; the sleep changes no variable. *)
Definition poll_iteration (float_repr : float -> string) (batch_status : Batch.poll)
  (st : monitor_state) : monitor_state :=
  if String.eqb (Batch.processing_status batch_status) "ended" then
    fold_left (record_result float_repr) (Batch.results batch_status) st
  else st.

(** The [while] loop against the answers [polls] of the service, one per
    iteration. [Some st] is the state the loop leaves with; [None] says that
    after all of [polls] the loop is still waiting. *)
Fixpoint monitor_loop (float_repr : float -> string) (expected_count : Z)
  (polls : list Batch.poll) (st : monitor_state) : option monitor_state :=
  if processed_count st <? expected_count then
    match polls with
    | [] => None
    | batch_status :: polls' =>
        monitor_loop float_repr expected_count polls'
          (poll_iteration float_repr batch_status st)
    end
  else Some st.

Definition _monitor_batch_progress (float_repr : float -> string)
  (polls : list Batch.poll) (expected_count : Z) : option (gmap string string) :=
  results <$> monitor_loop float_repr expected_count polls monitor_init.

(** [process_calculations]: the batch is created from the requests and
    monitored until one result per question has arrived. *)
Definition process_calculations (float_repr : float -> string) (self : agent)
  (polls : list Batch.poll) (questions : list string) : option (gmap string string) :=
  let batch_requests := _create_batch_requests self questions in
  _monitor_batch_progress float_repr polls (Z.of_nat (length questions)).

(** *** The calculator and the dispatcher on any interpreter

    How the builtin [sum] adds floats is the interpreter's choice (see
    [Py.sum]). The two functions that reach it are given here a second
    time, statement for statement as above, with the builtin as the
    parameter [builtin_sum]; at [Py.sum] they are the functions above. *)

Definition perform_calculation_with (builtin_sum : list num -> res num)
  (operation : string) (numbers : list num) : res num :=
  if String.eqb operation "add" then
    builtin_sum numbers
  else if String.eqb operation "subtract" then
    do first <- getitem0 numbers;
    do rest <- builtin_sum (slice1 numbers);
    sub first rest
  else if String.eqb operation "multiply" then
    for_each mul (PInt 1) numbers
  else if String.eqb operation "divide" then
    do result <- getitem0 numbers;
    for_each truediv result (slice1 numbers)
  else
    Raise (ValueError ("Unsupported operation: " ++ operation)).

Definition try_calculation_with (builtin_sum : list num -> res num)
  (float_repr : float -> string) (content : Msg.content_block) : string :=
  match
    (do operation <- getitem "operation" (Msg.operation (Msg.input content));
     do numbers <- getitem "numbers" (Msg.numbers (Msg.input content));
     perform_calculation_with builtin_sum operation numbers)
  with
  | Ok result => "Result: " ++ str_num float_repr result
  | Raise e => "Error during calculation: " ++ str_exn e
  end.

Fixpoint scan_content_with (builtin_sum : list num -> res num)
  (float_repr : float -> string) (blocks : list Msg.content_block) : string :=
  match blocks with
  | [] => "No tool use found in message"
  | content :: blocks' =>
      if String.eqb (Msg.type content) "tool_use"
      then try_calculation_with builtin_sum float_repr content
      else scan_content_with builtin_sum float_repr blocks'
  end.

Definition process_tool_use_with (builtin_sum : list num -> res num)
  (float_repr : float -> string) (message : Msg.message) : string :=
  match Msg.content message with
  | None => "Error: No content in message"
  | Some blocks => scan_content_with builtin_sum float_repr blocks
  end.

(** The number of digits up to which no interpreter limits the conversion
    of an [int] to text ([sys.int_info.str_digits_check_threshold]); the
    limit, where there is one, is at least this and 4300 by default. *)
Definition str_digits_check_threshold : Z := 640.

(** [z] has no more digits than that. *)
Definition prints_everywhere (z : Z) : Prop :=
  Z.abs z < 10 ^ str_digits_check_threshold.

(** ** The specification's wording of the calculator and the dispatcher *)

(** Sum and product of integers, as exact arithmetic has them. *)
Definition int_sum (zs : list Z) : Z := fold_right Z.add 0 zs.
Definition int_product (zs : list Z) : Z := fold_right Z.mul 1 zs.

(** What every interpreter's [sum] does on integers: the exact sum, an
    [int], 0 for no item. *)
Definition sums_integers (builtin_sum : list num -> res num) : Prop :=
  forall zs, builtin_sum (map PInt zs) = Ok (PInt (int_sum zs)).

(** A left-to-right fold of a binary operation that may fail, from [first]
    over [rest]. *)
Definition fold_from (op : num -> num -> res num) (first : num) (rest : list num)
  : res num :=
  fold_left (fun acc x => do r <- acc; op r x) rest (Ok first).

(** The first content item of kind [tool_use], if the message has one. *)
Definition first_tool_use (message : Msg.message) : option Msg.content_block :=
  match Msg.content message with
  | None => None
  | Some blocks => find (fun b => String.eqb (Msg.type b) "tool_use") blocks
  end.

(** The four operation names of the tool schema. *)
Definition supported (operation : string) : bool :=
  String.eqb operation "add" || String.eqb operation "subtract"
  || String.eqb operation "multiply" || String.eqb operation "divide".

(** A tool-use block as the service sends it for the [calculate] tool, and a
    text block, which has no tool input of its own. *)
Definition tool_use_block (operation : option string) (numbers : option (list num))
  : Msg.content_block :=
  {| Msg.type := "tool_use";
     Msg.name := "calculate";
     Msg.input := {| Msg.operation := operation; Msg.numbers := numbers |} |}.

Definition text_block : Msg.content_block :=
  {| Msg.type := "text";
     Msg.name := "";
     Msg.input := {| Msg.operation := None; Msg.numbers := None |} |}.

(** A tool-use event: a message whose one content item asks for
    [operation] over [numbers]. *)
Definition tool_use_message (operation : string) (numbers : list num) : Msg.message :=
  {| Msg.content := Some [tool_use_block (Some operation) (Some numbers)] |}.

(** A message with a text block, then the tool use [c], then a second
    tool use. *)
Definition after_text (c : Msg.content_block) : Msg.message :=
  {| Msg.content :=
       Some [text_block; c; tool_use_block (Some "add") (Some [PInt 1; PInt 2])] |}.

(** A rendering of floats for the sample runs, none of which prints a
    float. *)
Definition sample_float_repr : float -> string := fun _ => "<float>".

(** *** The monitor's runs, for stating its properties *)

(** The state after the loop body has run on each of [polls] in turn. *)
Definition run (float_repr : float -> string) (polls : list Batch.poll)
  (st : monitor_state) : monitor_state :=
  fold_left (fun st batch_status => poll_iteration float_repr batch_status st) polls st.

(** The state after [k] iterations of the loop. *)
Definition state_after (float_repr : float -> string) (polls : list Batch.poll) (k : nat)
  : monitor_state :=
  run float_repr (take k polls) monitor_init.

(** The poll reports an ended batch and a succeeded result for [id]. *)
Definition reported_succeeded (id : string) (batch_status : Batch.poll) : bool :=
  String.eqb (Batch.processing_status batch_status) "ended"
  && existsb (fun r => String.eqb (Batch.custom_id r) id
                       && String.eqb (Batch.type (Batch.result r)) "succeeded")
       (Batch.results batch_status).

(** The request [id] reaches a succeeded outcome in one of [polls]. *)
Definition succeeded_in (polls : list Batch.poll) (id : string) : bool :=
  existsb (reported_succeeded id) polls.

(** The service enumerates results of submitted requests only: every
    custom id it reports is one of [ids]. *)
Definition answers_within (ids : gset string) (polls : list Batch.poll) : bool :=
  forallb (fun batch_status =>
             forallb (fun r => bool_decide (Batch.custom_id r ∈ ids))
               (Batch.results batch_status))
    polls.

(** [text] is the dispatcher's answer to a succeeded result for [id] that
    one of [polls] reported with the batch ended. *)
Definition recorded_from (float_repr : float -> string) (polls : list Batch.poll)
  (id text : string) : Prop :=
  exists batch_status r,
    In batch_status polls /\
    Batch.processing_status batch_status = "ended" /\
    In r (Batch.results batch_status) /\
    Batch.custom_id r = id /\
    Batch.type (Batch.result r) = "succeeded" /\
    text = _process_tool_use float_repr (Batch.message (Batch.result r)).

(** What holds of the two variables throughout the loop when the service
    answers within [ids]. *)
Definition monitor_inv (float_repr : float -> string) (ids : gset string)
  (polls : list Batch.poll) (st : monitor_state) : Prop :=
  processed_count st = Z.of_nat (size (results st)) /\
  dom (results st) ⊆ ids /\
  forall id text, results st !! id = Some text -> recorded_from float_repr polls id text.

(** Sample answers of the service for a batch of two requests. *)
Definition succeeded_entry (id : string) (message : Msg.message) : Batch.entry :=
  {| Batch.custom_id := id;
     Batch.result := {| Batch.type := "succeeded"; Batch.message := message |} |}.

Definition errored_entry (id : string) : Batch.entry :=
  {| Batch.custom_id := id;
     Batch.result := {| Batch.type := "errored";
                        Batch.message := {| Msg.content := None |} |} |}.

Definition in_progress : Batch.poll :=
  {| Batch.processing_status := "in_progress"; Batch.results := [] |}.

Definition ended (entries : list Batch.entry) : Batch.poll :=
  {| Batch.processing_status := "ended"; Batch.results := entries |}.

Definition sample_ids : gset string := {[ "calculation_0"; "calculation_1" ]}.

Definition sample_polls : list Batch.poll :=
  [ in_progress;
    ended [ succeeded_entry "calculation_0" (tool_use_message "add" [PInt 25; PInt 17]);
            errored_entry "calculation_1" ];
    ended [ succeeded_entry "calculation_0" (tool_use_message "add" [PInt 25; PInt 17]);
            succeeded_entry "calculation_1" (tool_use_message "multiply" [PInt 13; PInt 7]) ] ].

(** The same batch when its second request errors for good. *)
Definition sample_polls_stuck : list Batch.poll :=
  [ in_progress;
    ended [ succeeded_entry "calculation_0" (tool_use_message "add" [PInt 25; PInt 17]);
            errored_entry "calculation_1" ];
    ended [ succeeded_entry "calculation_0" (tool_use_message "add" [PInt 25; PInt 17]);
            errored_entry "calculation_1" ] ].

(** *** What the loop has gone through, read off the answers *)

(** The results the loop enumerates over [polls]: those of the polls that
    report the batch ended, in the order of the polls. *)
Definition entries_seen (polls : list Batch.poll) : list Batch.entry :=
  flat_map (fun batch_status =>
              if String.eqb (Batch.processing_status batch_status) "ended"
              then Batch.results batch_status else [])
    polls.

(** [r] is a succeeded result for [id]. *)
Definition is_succeeded_for (id : string) (r : Batch.entry) : bool :=
  String.eqb (Batch.custom_id r) id
  && String.eqb (Batch.type (Batch.result r)) "succeeded".

(** The first succeeded result for [id] that the loop enumerates. *)
Definition first_succeeded (polls : list Batch.poll) (id : string) : option Batch.entry :=
  find (is_succeeded_for id) (entries_seen polls).

(** The dispatcher's answer to a result, which is what the loop records
    for it. *)
Definition answer_to (float_repr : float -> string) (r : Batch.entry) : string :=
  _process_tool_use float_repr (Batch.message (Batch.result r)).

(** The custom ids of the requests built for [questions]. *)
Definition request_ids (self : agent) (questions : list string) : gset string :=
  list_to_set (map Request.custom_id (_create_batch_requests self questions)).

(** The exceptions of the arithmetic: a conversion or a quotient too large
    for a float, and a division by zero. *)
Definition is_overflow (e : exn) : bool :=
  match e with
  | OverflowError _ => true
  | _ => false
  end.

Definition is_arithmetic (e : exn) : bool :=
  match e with
  | OverflowError _ | ZeroDivisionError _ => true
  | _ => false
  end.

(** Two questions, for the sample runs of [process_calculations]. *)
Definition sample_questions : list string := ["What is 25 + 17?"; "What is 13 * 7?"].

(** *** Reading the tool schema *)

(** [j[key]] for a JSON object. *)
Definition json_field (key : string) (j : json) : option json :=
  match j with
  | JObject fields =>
      match find (fun kv => String.eqb (fst kv) key) fields with
      | Some kv => Some (snd kv)
      | None => None
      end
  | _ => None
  end.

(** The operation names a tool schema allows:
    [tool["input_schema"]["properties"]["operation"]["enum"]]. *)
Definition schema_enum (tool : json) : list json :=
  match json_field "input_schema" tool with
  | Some input_schema =>
      match json_field "properties" input_schema with
      | Some properties =>
          match json_field "operation" properties with
          | Some operation =>
              match json_field "enum" operation with
              | Some (JArray items) => items
              | _ => []
              end
          | None => []
          end
      | None => []
      end
  | None => []
  end.

(** A run in which the first request is reported twice and the second one
    succeeds a poll later. *)
Definition sample_polls_repeated : list Batch.poll :=
  [ ended [ succeeded_entry "calculation_0" (tool_use_message "add" [PInt 25; PInt 17]);
            succeeded_entry "calculation_0" (tool_use_message "add" [PInt 1; PInt 1]) ];
    in_progress;
    ended [ succeeded_entry "calculation_0" (tool_use_message "multiply" [PInt 13; PInt 7]);
            succeeded_entry "calculation_1" (tool_use_message "subtract" [PInt 9; PInt 4]) ] ].

(** An operation whose result is a [float] exactly when an operand is. *)
Definition keeps_tag (op : num -> num -> res num) : Prop :=
  forall x y r, op x y = Ok r -> is_float r = is_float x || is_float y.

(** ** Properties of the runtime model *)

Section Arithmetic.

Lemma fold_left_Raise (op : num -> num -> res num) (l : list num) (e : exn) :
  fold_left (fun acc x => do r <- acc; op r x) l (Raise e) = Raise e.
Proof. induction l as [|x l IH]; simpl; auto. Qed.

Lemma for_each_fold_from (op : num -> num -> res num) (l : list num) :
  forall a, for_each op a l = fold_from op a l.
Proof.
  unfold fold_from. induction l as [|x l IH]; intros a; simpl; [reflexivity|].
  destruct (op a x) as [r|e]; simpl; [apply IH|].
  symmetry. apply fold_left_Raise.
Qed.

Lemma for_each_add_ints (zs : list Z) :
  forall a, for_each add (PInt a) (map PInt zs) = Ok (PInt (a + int_sum zs)).
Proof.
  induction zs as [|z zs IH]; intros a; simpl.
  - do 2 f_equal. lia.
  - rewrite IH. do 2 f_equal. lia.
Qed.

Lemma for_each_mul_ints (zs : list Z) :
  forall a, for_each mul (PInt a) (map PInt zs) = Ok (PInt (a * int_product zs)).
Proof.
  induction zs as [|z zs IH]; intros a; simpl.
  - do 2 f_equal. lia.
  - rewrite IH. do 2 f_equal. lia.
Qed.

(** Subtracting a positive zero leaves every double as it is, the
    negative zero and the special values included. *)
Lemma float_sub_zero (f : float) : (f - 0)%float = f.
Proof.
  apply Prim2SF_inj. rewrite sub_spec.
  change (Prim2SF 0) with (S754_zero false).
  destruct (Prim2SF f) as [[|]|[|]| |s m e]; reflexivity.
Qed.

Lemma float_of_int_zero : float_of_int 0 = Ok 0%float.
Proof. reflexivity. Qed.

Lemma sub_int_zero (x : num) : sub x (PInt 0) = Ok x.
Proof.
  destruct x as [a|f].
  - simpl. do 2 f_equal. lia.
  - unfold sub, float_binop, to_double. rewrite float_of_int_zero. simpl.
    now rewrite float_sub_zero.
Qed.

(** The tag of a result: [+], [-] and [*] yield an [int] exactly on two
    [int]s, [/] always yields a [float]. *)
Lemma float_binop_is_float op x y r : float_binop op x y = Ok r -> is_float r = true.
Proof.
  unfold float_binop. destruct (to_double x); simpl; [|discriminate].
  destruct (to_double y); simpl; [|discriminate].
  intros [= <-]. reflexivity.
Qed.

Lemma add_keeps_tag : keeps_tag add.
Proof.
  intros [a|f] [b|g] r H; simpl in *;
    try (apply float_binop_is_float in H; exact H).
  now injection H as <-.
Qed.

Lemma sub_keeps_tag : keeps_tag sub.
Proof.
  intros [a|f] [b|g] r H; simpl in *;
    try (apply float_binop_is_float in H; exact H).
  now injection H as <-.
Qed.

Lemma mul_keeps_tag : keeps_tag mul.
Proof.
  intros [a|f] [b|g] r H; simpl in *;
    try (apply float_binop_is_float in H; exact H).
  now injection H as <-.
Qed.

Lemma for_each_keeps_tag op (Hop : keeps_tag op) (l : list num) :
  forall a v, for_each op a l = Ok v -> is_float v = is_float a || existsb is_float l.
Proof.
  induction l as [|x l IH]; intros a v; simpl.
  - intros [= <-]. now rewrite orb_false_r.
  - destruct (op a x) as [r|e] eqn:E; simpl; [|discriminate].
    intros H. rewrite (IH _ _ H), (Hop _ _ _ E). now rewrite orb_assoc.
Qed.

Lemma truediv_is_float x y r : truediv x y = Ok r -> is_float r = true.
Proof.
  assert (Hmixed : forall x y,
    (do a <- to_double x; do b <- to_double y;
     if (b =? 0)%float then Raise (ZeroDivisionError "float division by zero")
     else Ok (PFloat (a / b))) = Ok r -> is_float r = true).
  { clear. intros x y. destruct (to_double x) as [a|]; simpl; [|discriminate].
    destruct (to_double y) as [b|]; simpl; [|discriminate].
    destruct (b =? 0)%float; [discriminate|]. now intros [= <-]. }
  destruct x as [a|f], y as [b|g]; try apply Hmixed.
  simpl. destruct (b =? 0); [discriminate|].
  destruct (int_true_divide a b); intros [= <-]; reflexivity.
Qed.

Lemma for_each_truediv_is_float (l : list num) :
  forall a v, is_float a = true -> for_each truediv a l = Ok v -> is_float v = true.
Proof.
  induction l as [|x l IH]; intros a v Ha; simpl.
  - now intros [= <-].
  - destruct (truediv a x) as [r|e] eqn:E; simpl; [|discriminate].
    apply IH. eapply truediv_is_float, E.
Qed.

(** A zero divisor makes [/] raise, whatever the dividend. *)
Lemma truediv_zero x y : is_zero y = true -> exists e, truediv x y = Raise e.
Proof.
  unfold truediv, is_zero. destruct x as [a|f], y as [b|g]; intros Hz.
  - rewrite Hz. eauto.
  - simpl. destruct (float_of_int a); simpl; [rewrite Hz|]; eauto.
  - simpl. apply Z.eqb_eq in Hz. subst b. rewrite float_of_int_zero. simpl. eauto.
  - simpl. rewrite Hz. eauto.
Qed.

Lemma for_each_truediv_zero (l : list num) :
  forall a, existsb is_zero l = true -> exists e, for_each truediv a l = Raise e.
Proof.
  induction l as [|x l IH]; intros a; simpl; [discriminate|].
  intros H. destruct (is_zero x) eqn:Hx.
  - destruct (truediv_zero a x Hx) as [e ->]. simpl. eauto.
  - simpl in H. destruct (truediv a x) as [r|e]; simpl; eauto.
Qed.

End Arithmetic.

(** ** The calculator *)

Section Calculator.

(** The branches of [_perform_calculation], one equation per operation
    name. *)
Lemma perform_add numbers : _perform_calculation "add" numbers = sum numbers.
Proof. reflexivity. Qed.

Lemma perform_subtract numbers :
  _perform_calculation "subtract" numbers =
  (do first <- getitem0 numbers; do rest <- sum (slice1 numbers); sub first rest).
Proof. reflexivity. Qed.

Lemma perform_multiply numbers :
  _perform_calculation "multiply" numbers = for_each mul (PInt 1) numbers.
Proof. reflexivity. Qed.

Lemma perform_divide numbers :
  _perform_calculation "divide" numbers =
  (do result <- getitem0 numbers; for_each truediv result (slice1 numbers)).
Proof. reflexivity. Qed.

Lemma perform_unsupported operation numbers :
  supported operation = false ->
  _perform_calculation operation numbers =
  Raise (ValueError ("Unsupported operation: " ++ operation)).
Proof.
  unfold supported, _perform_calculation. intros H.
  repeat (apply orb_false_elim in H; destruct H as [H ?]).
  now repeat match goal with E : String.eqb _ _ = false |- _ => rewrite E; clear E end.
Qed.

(** At the left-to-right sum the calculator over any builtin is
    [_perform_calculation]. *)
Lemma perform_calculation_with_sum operation numbers :
  perform_calculation_with sum operation numbers = _perform_calculation operation numbers.
Proof. reflexivity. Qed.

(** C1 (as amended): for any builtin [sum] that is exact on integers,
    [add] is the [sum] of all numbers; [subtract] is the first element
    minus the [sum] of the remaining ones, so that [subtract([a])] is [a]
    and [subtract([a,b,c])] is [a - sum([b,c])], which on integers is
    [a - b - c]; [multiply] is the left-to-right product from the integer
    1, which is the result on the empty list; [divide] is the
    left-to-right fold of [/] from the first element over the remaining
    ones. On integers [add], [subtract] and [multiply] are the exact sum,
    difference and product. *)
Theorem perform_calculation_folds (builtin_sum : list num -> res num) :
  sums_integers builtin_sum ->
  (forall numbers,
      perform_calculation_with builtin_sum "add" numbers = builtin_sum numbers) /\
  (forall first rest,
      perform_calculation_with builtin_sum "subtract" (first :: rest) =
      (do s <- builtin_sum rest; sub first s)) /\
  (forall a, perform_calculation_with builtin_sum "subtract" [a] = Ok a) /\
  (forall a b c : Z,
      perform_calculation_with builtin_sum "subtract" [PInt a; PInt b; PInt c]
      = Ok (PInt (a - b - c))) /\
  (forall numbers,
      perform_calculation_with builtin_sum "multiply" numbers
      = fold_from mul (PInt 1) numbers) /\
  perform_calculation_with builtin_sum "multiply" [] = Ok (PInt 1) /\
  (forall first rest,
      perform_calculation_with builtin_sum "divide" (first :: rest)
      = fold_from truediv first rest) /\
  (forall zs,
      perform_calculation_with builtin_sum "add" (map PInt zs) = Ok (PInt (int_sum zs))) /\
  (forall z zs,
      perform_calculation_with builtin_sum "subtract" (map PInt (z :: zs))
      = Ok (PInt (z - int_sum zs))) /\
  (forall zs,
      perform_calculation_with builtin_sum "multiply" (map PInt zs)
      = Ok (PInt (int_product zs))).
Proof.
  intros Hints.
  assert (Hsub : forall first rest,
    perform_calculation_with builtin_sum "subtract" (first :: rest) =
    (do s <- builtin_sum rest; sub first s)) by reflexivity.
  split; [reflexivity|]. split; [exact Hsub|].
  split; [|split; [|split; [|split; [|split; [|split; [|split]]]]]].
  - intros a. pose proof (Hints []) as Hnil. simpl in Hnil.
    rewrite Hsub, Hnil. simpl. apply sub_int_zero.
  - intros a b c. pose proof (Hints [b; c]) as Hbc. simpl in Hbc.
    rewrite Hsub, Hbc. simpl. do 2 f_equal. lia.
  - intros numbers. apply for_each_fold_from.
  - reflexivity.
  - intros first rest. apply for_each_fold_from.
  - intros zs. apply Hints.
  - intros z zs. change (map PInt (z :: zs)) with (PInt z :: map PInt zs).
    now rewrite Hsub, Hints.
  - intros zs. change (perform_calculation_with builtin_sum "multiply" (map PInt zs))
      with (for_each mul (PInt 1) (map PInt zs)).
    rewrite for_each_mul_ints. do 2 f_equal. lia.
Qed.

(** The left-to-right sum is exact on integers, and with it the theorem
    speaks of [_perform_calculation] itself. *)
Lemma perform_calculation_folds_witness :
  sums_integers sum /\
  _perform_calculation "subtract" [PInt 10; PInt 3; PInt 2] = Ok (PInt 5) /\
  _perform_calculation "subtract" [PFloat 1e16] = Ok (PFloat 1e16) /\
  _perform_calculation "add" [PInt 25; PInt 17] = Ok (PInt 42).
Proof.
  assert (Hsum : sums_integers sum) by (intros zs; exact (for_each_add_ints zs 0)).
  split; [exact Hsum|].
  pose proof (perform_calculation_folds sum Hsum)
    as (_ & _ & Hone & Hthree & _ & _ & _ & Hadd & _).
  split; [exact (Hthree 10 3 2)|]. split; [exact (Hone (PFloat 1e16))|].
  exact (Hadd [25; 17]).
Defined.

(** C1, the sentence that fails: on floats [subtract([a,b,c])] is not
    [a - b - c]. The code subtracts the sum [1.0 + 1.0] from [1e16] and
    gets 9999999999999998.0; subtracting 1.0 twice leaves 1e16, each
    difference being rounded back to it. *)
Lemma subtract_floats_not_left_to_right :
  _perform_calculation "subtract" [PFloat 1e16; PFloat 1; PFloat 1]
    = Ok (PFloat 9999999999999998) /\
  (do d <- sub (PFloat 1e16) (PFloat 1); sub d (PFloat 1)) = Ok (PFloat 1e16) /\
  (9999999999999998 =? 1e16)%float = false.
Proof. repeat split. Qed.

(** C3 (as amended): a result of [_perform_calculation] is a [float] exactly
    when some input number is a [float], or the operation is [divide] over
    at least two numbers; every other result is an [int]. *)
Theorem perform_calculation_result_tag operation numbers v :
  _perform_calculation operation numbers = Ok v ->
  is_float v =
  existsb is_float numbers || (String.eqb operation "divide" && (2 <=? length numbers)%nat).
Proof.
  unfold _perform_calculation.
  destruct (String.eqb operation "add") eqn:Eadd.
  { apply String.eqb_eq in Eadd. subst. intros H.
    apply (for_each_keeps_tag add add_keeps_tag) in H. rewrite H. simpl.
    now rewrite orb_false_r. }
  destruct (String.eqb operation "subtract") eqn:Esub.
  { apply String.eqb_eq in Esub. subst. simpl. rewrite orb_false_r.
    destruct numbers as [|first rest]; simpl; [discriminate|].
    destruct (sum rest) as [s|e] eqn:Es; simpl; [|discriminate]. intros H.
    apply (for_each_keeps_tag add add_keeps_tag) in Es.
    rewrite (sub_keeps_tag _ _ _ H), Es. reflexivity. }
  destruct (String.eqb operation "multiply") eqn:Emul.
  { apply String.eqb_eq in Emul. subst. intros H.
    apply (for_each_keeps_tag mul mul_keeps_tag) in H. rewrite H. simpl.
    now rewrite orb_false_r. }
  destruct (String.eqb operation "divide") eqn:Ediv; [|discriminate].
  destruct numbers as [|first rest]; simpl; [discriminate|].
  destruct rest as [|divisor rest]; simpl.
  - intros [= <-]. now rewrite !orb_false_r.
  - destruct (truediv first divisor) as [r|e] eqn:E; simpl; [|discriminate].
    intros H. rewrite orb_true_r.
    eapply for_each_truediv_is_float, H. eapply truediv_is_float, E.
Qed.

Lemma perform_calculation_result_tag_witness :
  _perform_calculation "divide" [PInt 100; PInt 4] = Ok (PFloat 25) /\
  is_float (PFloat 25) = true.
Proof.
  split; [reflexivity|].
  exact (perform_calculation_result_tag "divide" [PInt 100; PInt 4] (PFloat 25) eq_refl).
Defined.

(** C3, the sentence that fails: [add] over the integers 25 and 17 yields
    the integer 42, not a float. *)
Lemma add_of_ints_is_int :
  _perform_calculation "add" [PInt 25; PInt 17] = Ok (PInt 42) /\
  is_float (PInt 42) = false.
Proof. split; reflexivity. Qed.

(** The three calculations of the example run, and the division of the
    specification's test list. *)
Example calculations_of_the_example_run :
  _perform_calculation "add" [PInt 25; PInt 17] = Ok (PInt 42) /\
  _perform_calculation "divide" [PInt 100; PInt 4] = Ok (PFloat 25) /\
  _perform_calculation "multiply" [PInt 13; PInt 7] = Ok (PInt 91) /\
  _perform_calculation "divide" [PInt 8; PInt 2] = Ok (PFloat 4) /\
  _perform_calculation "add" [PFloat 25; PFloat 17] = Ok (PFloat 42).
Proof. repeat split. Qed.

End Calculator.

(** ** The tool dispatcher *)

Section Dispatcher.

Variable float_repr : float -> string.

Lemma scan_content_find blocks :
  scan_content float_repr blocks =
  match find (fun b => String.eqb (Msg.type b) "tool_use") blocks with
  | Some c => try_calculation float_repr c
  | None => "No tool use found in message"
  end.
Proof.
  induction blocks as [|b blocks IH]; simpl; [reflexivity|].
  destruct (String.eqb (Msg.type b) "tool_use"); [reflexivity|apply IH].
Qed.

Lemma process_first_tool_use message c :
  first_tool_use message = Some c ->
  _process_tool_use float_repr message = try_calculation float_repr c.
Proof.
  unfold first_tool_use, _process_tool_use.
  destruct (Msg.content message) as [blocks|]; [|discriminate].
  intros H. now rewrite scan_content_find, H.
Qed.


(** What the [try] statement returns, by the three ways it can go. *)
Lemma try_calculation_missing_operation c :
  Msg.operation (Msg.input c) = None ->
  try_calculation float_repr c = "Error during calculation: 'operation'".
Proof. unfold try_calculation. now intros ->. Qed.

Lemma try_calculation_missing_numbers c operation :
  Msg.operation (Msg.input c) = Some operation ->
  Msg.numbers (Msg.input c) = None ->
  try_calculation float_repr c = "Error during calculation: 'numbers'".
Proof. unfold try_calculation. now intros -> ->. Qed.

Lemma try_calculation_call c operation numbers :
  Msg.operation (Msg.input c) = Some operation ->
  Msg.numbers (Msg.input c) = Some numbers ->
  try_calculation float_repr c =
  match _perform_calculation operation numbers with
  | Ok result => ("Result: " ++ str_num float_repr result)%string
  | Raise e => ("Error during calculation: " ++ str_exn e)%string
  end.
Proof. unfold try_calculation. now intros -> ->. Qed.

(** The dispatcher over any builtin [sum], read the same way. *)
Lemma process_tool_use_with_sum message :
  process_tool_use_with sum float_repr message = _process_tool_use float_repr message.
Proof.
  unfold process_tool_use_with, _process_tool_use.
  destruct (Msg.content message) as [blocks|]; [|reflexivity].
  induction blocks as [|b blocks IH]; simpl; [reflexivity|].
  now destruct (String.eqb (Msg.type b) "tool_use").
Qed.



(** C4: a [divide] whose divisors include a zero comes back from the
    dispatcher as the text of the exception the division raised, behind
    "Error during calculation: ", and never as a "Result: ..." string. *)
Theorem divide_by_zero_error_string message c first rest :
  first_tool_use message = Some c ->
  Msg.operation (Msg.input c) = Some "divide" ->
  Msg.numbers (Msg.input c) = Some (first :: rest) ->
  existsb is_zero rest = true ->
  (exists e,
      _perform_calculation "divide" (first :: rest) = Raise e /\
      _process_tool_use float_repr message = ("Error during calculation: " ++ str_exn e)%string) /\
  String.prefix "Result: " (_process_tool_use float_repr message) = false.
Proof.
  intros Hc Hop Hns Hz.
  rewrite (process_first_tool_use _ _ Hc), (try_calculation_call _ _ _ Hop Hns).
  rewrite perform_divide. simpl.
  destruct (for_each_truediv_zero rest first Hz) as [e ->].
  split; [exists e; split; reflexivity|reflexivity].
Qed.

(** C7: an operation name outside the four of the schema comes back as an
    error string: "Unsupported operation: <name>" when the input has its
    numbers, the missing key when it has not. A tool-use event with
    operation "modulo" yields exactly
    "Error during calculation: Unsupported operation: modulo". *)
Theorem unsupported_operation_error_string :
  (forall message c operation,
      first_tool_use message = Some c ->
      Msg.operation (Msg.input c) = Some operation ->
      supported operation = false ->
      _process_tool_use float_repr message =
      match Msg.numbers (Msg.input c) with
      | Some _ => ("Error during calculation: Unsupported operation: " ++ operation)%string
      | None => "Error during calculation: 'numbers'"
      end) /\
  (forall numbers,
      _process_tool_use float_repr (tool_use_message "modulo" numbers) =
      "Error during calculation: Unsupported operation: modulo").
Proof.
  split.
  - intros message c operation Hc Hop Hun.
    rewrite (process_first_tool_use _ _ Hc).
    destruct (Msg.numbers (Msg.input c)) as [numbers|] eqn:Hns.
    + rewrite (try_calculation_call _ _ _ Hop Hns).
      now rewrite (perform_unsupported _ _ Hun).
    + exact (try_calculation_missing_numbers _ _ Hop Hns).
  - reflexivity.
Qed.

(** C9: a tool-use item whose input lacks "operation", or has it and
    lacks "numbers", comes back as the error string that names the
    missing key; the lookup's exception does not leave the dispatcher. *)
Theorem missing_field_error_string message c :
  first_tool_use message = Some c ->
  (Msg.operation (Msg.input c) = None ->
   _process_tool_use float_repr message = "Error during calculation: 'operation'") /\
  (forall operation,
      Msg.operation (Msg.input c) = Some operation ->
      Msg.numbers (Msg.input c) = None ->
      _process_tool_use float_repr message = "Error during calculation: 'numbers'").
Proof.
  intros Hc. rewrite (process_first_tool_use _ _ Hc). split.
  - apply try_calculation_missing_operation.
  - apply try_calculation_missing_numbers.
Qed.

(** C10: on the empty list [subtract] and [divide] fail at [numbers[0]],
    and the dispatcher turns that into
    "Error during calculation: list index out of range"; [add] on the
    empty list is the integer 0, which the dispatcher prints as
    "Result: 0". *)
Theorem empty_numbers_outcomes :
  _perform_calculation "subtract" [] = Raise (IndexError "list index out of range") /\
  _perform_calculation "divide" [] = Raise (IndexError "list index out of range") /\
  _perform_calculation "add" [] = Ok (PInt 0) /\
  (forall message c operation,
      first_tool_use message = Some c ->
      Msg.operation (Msg.input c) = Some operation ->
      Msg.numbers (Msg.input c) = Some [] ->
      (operation = "subtract" \/ operation = "divide" ->
       _process_tool_use float_repr message =
       "Error during calculation: list index out of range") /\
      (operation = "add" -> _process_tool_use float_repr message = "Result: 0")).
Proof.
  split; [reflexivity|split; [reflexivity|split; [reflexivity|]]].
  intros message c operation Hc Hop Hns.
  rewrite (process_first_tool_use _ _ Hc), (try_calculation_call _ _ _ Hop Hns).
  split.
  - now intros [-> | ->].
  - now intros ->.
Qed.

(** The result strings of the example run: integers print as integers,
    the quotient prints as the float 25.0 does. *)
Example results_of_the_example_run :
  _process_tool_use float_repr (tool_use_message "add" [PInt 25; PInt 17])
  = "Result: 42" /\
  _process_tool_use float_repr (tool_use_message "divide" [PInt 100; PInt 4])
  = ("Result: " ++ float_repr 25)%string /\
  _process_tool_use float_repr (tool_use_message "multiply" [PInt 13; PInt 7])
  = "Result: 91".
Proof. repeat split. Qed.

End Dispatcher.

(** Sample runs of the dispatcher: a text block, then the tool use that is
    answered, then a second tool use that is not looked at. *)
Section DispatcherSamples.


Lemma divide_by_zero_error_string_witness :
  (exists e,
      _perform_calculation "divide" [PInt 8; PInt 0] = Raise e /\
      _process_tool_use sample_float_repr
        (after_text (tool_use_block (Some "divide") (Some [PInt 8; PInt 0])))
      = ("Error during calculation: " ++ str_exn e)%string) /\
  String.prefix "Result: "
    (_process_tool_use sample_float_repr
       (after_text (tool_use_block (Some "divide") (Some [PInt 8; PInt 0])))) = false.
Proof.
  exact (divide_by_zero_error_string sample_float_repr
           (after_text (tool_use_block (Some "divide") (Some [PInt 8; PInt 0])))
           (tool_use_block (Some "divide") (Some [PInt 8; PInt 0]))
           (PInt 8) [PInt 0] eq_refl eq_refl eq_refl eq_refl).
Defined.

Lemma unsupported_operation_error_string_witness :
  _process_tool_use sample_float_repr
    (after_text (tool_use_block (Some "modulo") (Some [PInt 7; PInt 3])))
  = "Error during calculation: Unsupported operation: modulo".
Proof.
  exact (proj1 (unsupported_operation_error_string sample_float_repr)
           (after_text (tool_use_block (Some "modulo") (Some [PInt 7; PInt 3])))
           (tool_use_block (Some "modulo") (Some [PInt 7; PInt 3]))
           "modulo" eq_refl eq_refl eq_refl).
Defined.

Lemma missing_field_error_string_witness :
  _process_tool_use sample_float_repr (after_text (tool_use_block None (Some [PInt 1])))
  = "Error during calculation: 'operation'" /\
  _process_tool_use sample_float_repr (after_text (tool_use_block (Some "add") None))
  = "Error during calculation: 'numbers'".
Proof.
  split.
  - exact (proj1 (missing_field_error_string sample_float_repr
                    (after_text (tool_use_block None (Some [PInt 1])))
                    (tool_use_block None (Some [PInt 1])) eq_refl) eq_refl).
  - exact (proj2 (missing_field_error_string sample_float_repr
                    (after_text (tool_use_block (Some "add") None))
                    (tool_use_block (Some "add") None) eq_refl) "add" eq_refl eq_refl).
Defined.

Lemma empty_numbers_outcomes_witness :
  _process_tool_use sample_float_repr (after_text (tool_use_block (Some "divide") (Some [])))
  = "Error during calculation: list index out of range" /\
  _process_tool_use sample_float_repr (after_text (tool_use_block (Some "add") (Some [])))
  = "Result: 0".
Proof.
  split.
  - exact (proj1 (proj2 (proj2 (proj2 (empty_numbers_outcomes sample_float_repr)))
                    (after_text (tool_use_block (Some "divide") (Some [])))
                    (tool_use_block (Some "divide") (Some []))
                    "divide" eq_refl eq_refl eq_refl) (or_intror eq_refl)).
  - exact (proj2 (proj2 (proj2 (proj2 (empty_numbers_outcomes sample_float_repr)))
                    (after_text (tool_use_block (Some "add") (Some [])))
                    (tool_use_block (Some "add") (Some []))
                    "add" eq_refl eq_refl eq_refl) eq_refl).
Defined.

End DispatcherSamples.

(** ** The request builder *)

Section RequestBuilder.

Lemma str_int_inj a b : str_int a = str_int b -> a = b.
Proof.
  assert (Hnn : forall z, Z.to_int z <> Decimal.Pos Decimal.Nil /\
                          Z.to_int z <> Decimal.Neg Decimal.Nil).
  { intros [|p|p]; simpl; split; try discriminate;
      intros [= E]; now apply DecimalPos.Unsigned.to_uint_nonnil in E. }
  unfold str_int. intros H. apply DecimalZ.to_int_inj.
  apply (f_equal NilZero.int_of_string) in H.
  rewrite !NilZero.isi in H by apply Hnn. now injection H.
Qed.

Lemma lookup_enumerate_from {A : Type} (l : list A) :
  forall start i,
    enumerate_from start l !! i = (fun x => ((start + i)%nat, x)) <$> l !! i.
Proof.
  induction l as [|x l IH]; intros start [|i]; simpl; try reflexivity.
  - now rewrite Nat.add_0_r.
  - rewrite IH. now rewrite Nat.add_succ_r.
Qed.

Lemma lookup_map {A B : Type} (f : A -> B) (l : list A) :
  forall i, map f l !! i = f <$> l !! i.
Proof. induction l as [|x l IH]; intros [|i]; simpl; auto. Qed.

Lemma map_fst_enumerate_from {A : Type} (l : list A) :
  forall start, map fst (enumerate_from start l) = seq start (length l).
Proof. induction l as [|x l IH]; intros start; simpl; [|rewrite IH]; reflexivity. Qed.

Lemma custom_ids_of_requests self questions :
  map Request.custom_id (_create_batch_requests self questions) =
  map (fun i => ("calculation_" ++ str_int (Z.of_nat i))%string)
      (seq 0 (length questions)).
Proof.
  unfold _create_batch_requests, enumerate.
  rewrite <- map_fst_enumerate_from, !map_map.
  apply map_ext. now intros [i question].
Qed.

Lemma custom_ids_NoDup self questions :
  NoDup (map Request.custom_id (_create_batch_requests self questions)).
Proof.
  rewrite custom_ids_of_requests.
  change (NoDup ((fun i => ("calculation_" ++ str_int (Z.of_nat i))%string)
                   <$> seq 0 (length questions))).
  apply NoDup_fmap_2; [|apply NoDup_seq].
  intros i j H. injection H as H. apply str_int_inj in H. lia.
Qed.

(** C6: the builder returns one request per question, at the position
    of its question, with the custom id "calculation_<position>", the
    question as the one user message, the fixed system instruction and
    the agent's calculator tool; the custom ids are pairwise different.
    The builder is a total function of the questions. *)
Theorem create_batch_requests_spec self questions :
  length (_create_batch_requests self questions) = length questions /\
  (forall i : nat,
      _create_batch_requests self questions !! i =
      (fun question =>
         {| Request.custom_id := "calculation_" ++ str_int (Z.of_nat i);
            Request.params_of :=
              {| Request.model := "claude-3-5-sonnet-20241022";
                 Request.max_tokens := 1024;
                 Request.tools := [calculator_tool self];
                 Request.system := system_prompt;
                 Request.messages :=
                   [{| Request.role := "user"; Request.content := question |}] |} |})
      <$> questions !! i) /\
  map Request.custom_id (_create_batch_requests self questions) =
    map (fun i => ("calculation_" ++ str_int (Z.of_nat i))%string)
        (seq 0 (length questions)) /\
  NoDup (map Request.custom_id (_create_batch_requests self questions)) /\
  calculator_tool init = _define_calculator_tool.
Proof.
  repeat split.
  - unfold _create_batch_requests, enumerate.
    rewrite length_map, <- (length_map fst), map_fst_enumerate_from. apply length_seq.
  - intros i. unfold _create_batch_requests, enumerate.
    rewrite lookup_map, lookup_enumerate_from.
    now destruct (questions !! i).
  - apply custom_ids_of_requests.
  - apply custom_ids_NoDup.
Qed.

End RequestBuilder.

(** ** The batch monitor *)

Section Monitor.

Variable float_repr : float -> string.

(** *** The counter never decreases *)

Lemma record_result_count_le st r :
  processed_count st <= processed_count (record_result float_repr st r).
Proof. unfold record_result. destruct (_ && _); simpl; lia. Qed.

Lemma fold_record_count_le entries :
  forall st,
    processed_count st <=
    processed_count (fold_left (record_result float_repr) entries st).
Proof.
  induction entries as [|r entries IH]; intros st; simpl; [lia|].
  etransitivity; [apply (record_result_count_le st r)|apply IH].
Qed.

Lemma poll_iteration_count_le batch_status st :
  processed_count st <= processed_count (poll_iteration float_repr batch_status st).
Proof.
  unfold poll_iteration. destruct (String.eqb _ _); [apply fold_record_count_le|lia].
Qed.

Lemma run_app polls1 polls2 st :
  run float_repr (polls1 ++ polls2) st = run float_repr polls2 (run float_repr polls1 st).
Proof. apply fold_left_app. Qed.

Lemma state_after_S polls k :
  state_after float_repr polls (S k) =
  match polls !! k with
  | Some batch_status =>
      poll_iteration float_repr batch_status (state_after float_repr polls k)
  | None => state_after float_repr polls k
  end.
Proof.
  unfold state_after. destruct (polls !! k) as [p|] eqn:E.
  - rewrite (take_S_r _ _ _ E), run_app. reflexivity.
  - apply lookup_ge_None in E. rewrite !take_ge by lia. reflexivity.
Qed.

Lemma state_after_count_le polls k :
  processed_count (state_after float_repr polls k) <=
  processed_count (state_after float_repr polls (S k)).
Proof.
  rewrite state_after_S. destruct (polls !! k); [apply poll_iteration_count_le|lia].
Qed.

(** *** The loop and the states it goes through *)

Lemma monitor_loop_run expected_count polls :
  forall st st',
    monitor_loop float_repr expected_count polls st = Some st' <->
    exists k : nat,
      (k <= length polls)%nat /\
      st' = run float_repr (take k polls) st /\
      expected_count <= processed_count st' /\
      forall j : nat,
        (j < k)%nat -> processed_count (run float_repr (take j polls) st) < expected_count.
Proof.
  induction polls as [|p polls IH]; intros st st'; simpl.
  - destruct (processed_count st <? expected_count) eqn:G.
    + apply Z.ltb_lt in G. split; [discriminate|].
      intros (k & Hk & -> & Hge & _). destruct k; simpl in *; lia.
    + apply Z.ltb_ge in G. split.
      * intros [= <-]. exists 0%nat. repeat split; [lia|exact G|lia].
      * intros (k & Hk & -> & _). now destruct k.
  - destruct (processed_count st <? expected_count) eqn:G.
    + apply Z.ltb_lt in G. rewrite IH. split.
      * intros (k & Hk & -> & Hge & Hlt). exists (S k).
        repeat split; [simpl; lia|exact Hge|].
        intros [|j] Hj; simpl; [exact G|apply Hlt; lia].
      * intros ([|k] & Hk & -> & Hge & Hlt); simpl in *; [lia|].
        exists k. repeat split; [lia|exact Hge|].
        intros j Hj. apply (Hlt (S j)). lia.
    + apply Z.ltb_ge in G. split.
      * intros [= <-]. exists 0%nat. repeat split; [lia|exact G|lia].
      * intros ([|k] & Hk & -> & Hge & Hlt); [reflexivity|].
        specialize (Hlt 0%nat). simpl in Hlt. lia.
Qed.

Lemma monitor_loop_waits expected_count polls :
  forall st,
    (forall k : nat,
        (k <= length polls)%nat ->
        processed_count (run float_repr (take k polls) st) < expected_count) ->
    monitor_loop float_repr expected_count polls st = None.
Proof.
  intros st H.
  destruct (monitor_loop float_repr expected_count polls st) as [st'|] eqn:E;
    [|reflexivity].
  apply monitor_loop_run in E. destruct E as (k & Hk & -> & Hge & _).
  specialize (H k Hk). lia.
Qed.

(** *** What the map holds *)

Lemma monitor_inv_init ids polls : monitor_inv float_repr ids polls monitor_init.
Proof.
  unfold monitor_inv, monitor_init. simpl. repeat split.
  - rewrite dom_empty_L. apply empty_subseteq.
  - intros id text H. now rewrite lookup_empty in H.
Qed.

Lemma record_result_inv ids polls batch_status r st :
  In batch_status polls ->
  Batch.processing_status batch_status = "ended" ->
  In r (Batch.results batch_status) ->
  Batch.custom_id r ∈ ids ->
  monitor_inv float_repr ids polls st ->
  monitor_inv float_repr ids polls (record_result float_repr st r).
Proof.
  intros Hp Hended Hr Hid (Hcount & Hdom & Hrec). unfold record_result.
  destruct (bool_decide _) eqn:Hnew; simpl; [|repeat split; assumption].
  destruct (String.eqb _ _) eqn:Hok; simpl; [|repeat split; assumption].
  apply bool_decide_eq_true in Hnew. apply String.eqb_eq in Hok.
  repeat split; simpl.
  - rewrite (map_size_insert_None _ _ _ Hnew). lia.
  - rewrite dom_insert_L. apply union_least; [|exact Hdom].
    now apply singleton_subseteq_l.
  - intros id text. rewrite lookup_insert. destruct (decide _) as [<-|Hne].
    + intros [= <-]. exists batch_status, r. repeat split; assumption.
    + apply Hrec.
Qed.

Lemma fold_record_inv ids polls batch_status :
  In batch_status polls ->
  Batch.processing_status batch_status = "ended" ->
  forall entries,
    (forall r, In r entries -> In r (Batch.results batch_status)) ->
    (forall r, In r entries -> Batch.custom_id r ∈ ids) ->
    forall st,
      monitor_inv float_repr ids polls st ->
      monitor_inv float_repr ids polls (fold_left (record_result float_repr) entries st).
Proof.
  intros Hp Hended. induction entries as [|r entries IH]; intros Hsub Hids st Hst; simpl.
  - exact Hst.
  - apply IH.
    + intros r' Hr'. apply Hsub. now right.
    + intros r' Hr'. apply Hids. now right.
    + apply (record_result_inv ids polls batch_status); auto.
      * apply Hsub. now left.
      * apply Hids. now left.
Qed.

Lemma poll_iteration_inv ids polls batch_status st :
  In batch_status polls ->
  (forall r, In r (Batch.results batch_status) -> Batch.custom_id r ∈ ids) ->
  monitor_inv float_repr ids polls st ->
  monitor_inv float_repr ids polls (poll_iteration float_repr batch_status st).
Proof.
  intros Hp Hids Hst. unfold poll_iteration.
  destruct (String.eqb _ _) eqn:E; [|exact Hst].
  apply String.eqb_eq in E.
  now apply (fold_record_inv ids polls batch_status).
Qed.

Lemma answers_within_In ids polls batch_status r :
  answers_within ids polls = true ->
  In batch_status polls ->
  In r (Batch.results batch_status) ->
  Batch.custom_id r ∈ ids.
Proof.
  unfold answers_within. intros H Hp Hr.
  rewrite forallb_forall in H. specialize (H _ Hp).
  rewrite forallb_forall in H. specialize (H _ Hr).
  now apply bool_decide_eq_true in H.
Qed.

Lemma run_inv ids polls seen :
  answers_within ids polls = true ->
  (forall batch_status, In batch_status seen -> In batch_status polls) ->
  forall st,
    monitor_inv float_repr ids polls st ->
    monitor_inv float_repr ids polls (run float_repr seen st).
Proof.
  intros Hans. unfold run.
  induction seen as [|p seen IH]; intros Hsub st Hst; simpl; [exact Hst|].
  apply IH; [intros q Hq; apply Hsub; now right|].
  apply poll_iteration_inv; [apply Hsub; now left| |exact Hst].
  intros r Hr. eapply answers_within_In; eauto. apply Hsub. now left.
Qed.

Lemma answers_within_take ids polls k :
  answers_within ids polls = true -> answers_within ids (take k polls) = true.
Proof.
  unfold answers_within. rewrite !forallb_forall. intros H p Hp. apply H.
  rewrite <- (take_drop k polls). apply in_or_app. now left.
Qed.

Lemma state_after_inv ids polls k :
  answers_within ids polls = true ->
  monitor_inv float_repr ids (take k polls) (state_after float_repr polls k).
Proof.
  intros Hans. unfold state_after.
  apply run_inv; [now apply answers_within_take|auto|apply monitor_inv_init].
Qed.

Lemma recorded_from_succeeded polls id text :
  recorded_from float_repr polls id text -> succeeded_in polls id = true.
Proof.
  intros (p & r & Hp & Hended & Hr & Hid & Hok & _).
  unfold succeeded_in. apply existsb_exists. exists p. split; [exact Hp|].
  unfold reported_succeeded. rewrite Hended. simpl.
  apply existsb_exists. exists r. split; [exact Hr|].
  rewrite Hid, Hok, String.eqb_refl. reflexivity.
Qed.

Lemma succeeded_in_take polls k id :
  succeeded_in (take k polls) id = true -> succeeded_in polls id = true.
Proof.
  unfold succeeded_in. rewrite !existsb_exists. intros (p & Hp & H).
  exists p. split; [|exact H].
  rewrite <- (take_drop k polls). apply in_or_app. now left.
Qed.

Lemma monitor_inv_count_le ids polls st :
  monitor_inv float_repr ids polls st ->
  processed_count st <= Z.of_nat (size ids).
Proof.
  intros (Hcount & Hdom & _). rewrite Hcount, <- size_dom.
  apply inj_le, subseteq_size, Hdom.
Qed.

Lemma monitor_inv_full ids polls st :
  monitor_inv float_repr ids polls st ->
  size (results st) = size ids ->
  forall id, id ∈ ids -> succeeded_in polls id = true.
Proof.
  intros (_ & Hdom & Hrec) Hsize id Hid.
  assert (Heq : dom (results st) = ids).
  { apply set_subseteq_size_eq; [exact Hdom|]. rewrite size_dom. lia. }
  rewrite <- Heq in Hid. apply elem_of_dom in Hid as [text Htext].
  eapply recorded_from_succeeded, Hrec, Htext.
Qed.

Lemma monitor_inv_missing ids polls st id :
  monitor_inv float_repr ids polls st ->
  id ∈ ids ->
  succeeded_in polls id = false ->
  processed_count st < Z.of_nat (size ids).
Proof.
  intros (Hcount & Hdom & Hrec) Hid Hnever.
  assert (Hout : id ∉ dom (results st)).
  { intros Hin. apply elem_of_dom in Hin as [text Htext].
    apply Hrec, recorded_from_succeeded in Htext. congruence. }
  rewrite Hcount, <- size_dom. apply inj_lt, subset_size.
  split; [exact Hdom|]. intros Hsub. apply Hout, Hsub, Hid.
Qed.

(** *** A batch that is not ended changes nothing *)

Lemma run_not_ended polls :
  forallb (fun p => negb (String.eqb (Batch.processing_status p) "ended")) polls = true ->
  forall st, run float_repr polls st = st.
Proof.
  unfold run. induction polls as [|p polls IH]; simpl; intros H st; [reflexivity|].
  apply andb_prop in H as [Hp H]. rewrite IH by exact H.
  unfold poll_iteration. now destruct (String.eqb _ _).
Qed.

Lemma not_ended_take polls k :
  forallb (fun p => negb (String.eqb (Batch.processing_status p) "ended")) polls = true ->
  forallb (fun p => negb (String.eqb (Batch.processing_status p) "ended")) (take k polls)
  = true.
Proof.
  rewrite !forallb_forall. intros H p Hp. apply H.
  rewrite <- (take_drop k polls). apply in_or_app. now left.
Qed.

Lemma not_ended_repeat n :
  forallb (fun p => negb (String.eqb (Batch.processing_status p) "ended"))
    (repeat in_progress n) = true.
Proof. induction n as [|n IH]; simpl; [reflexivity|exact IH]. Qed.

(** C2: when the service answers for the [expected_count] submitted
    requests [ids] only, then over any polls (1) the counter does not
    decrease from one iteration to the next; (2) the loop returns exactly
    at the first iteration after which the counter equals
    [expected_count]; (3) the map has [expected_count] entries only
    when every request was reported succeeded, and the returned map has
    that many; (4) every entry of the map is the dispatcher's answer to
    a result reported succeeded, so a request never reported succeeded
    has none. *)
Theorem monitor_invariants (ids : gset string) (expected_count : Z)
  (polls : list Batch.poll) :
  Z.of_nat (size ids) = expected_count ->
  answers_within ids polls = true ->
  (forall k : nat,
      processed_count (state_after float_repr polls k) <=
      processed_count (state_after float_repr polls (S k))) /\
  (forall st,
      monitor_loop float_repr expected_count polls monitor_init = Some st <->
      exists k : nat,
        (k <= length polls)%nat /\
        st = state_after float_repr polls k /\
        processed_count st = expected_count /\
        forall j : nat,
          (j < k)%nat ->
          processed_count (state_after float_repr polls j) <> expected_count) /\
  (forall k : nat,
      Z.of_nat (size (results (state_after float_repr polls k))) = expected_count ->
      forall id, id ∈ ids -> succeeded_in (take k polls) id = true) /\
  (forall m,
      _monitor_batch_progress float_repr polls expected_count = Some m ->
      Z.of_nat (size m) = expected_count /\
      forall id, id ∈ ids -> succeeded_in polls id = true) /\
  (forall (k : nat) id text,
      results (state_after float_repr polls k) !! id = Some text ->
      recorded_from float_repr (take k polls) id text) /\
  (forall (k : nat) id,
      succeeded_in (take k polls) id = false ->
      results (state_after float_repr polls k) !! id = None).
Proof.
  intros Hsize Hans.
  assert (Hinv := fun k => state_after_inv ids polls k Hans).
  assert (Hle : forall k, processed_count (state_after float_repr polls k) <= expected_count).
  { intros k. rewrite <- Hsize. eapply monitor_inv_count_le, Hinv. }
  assert (Hret : forall st,
    monitor_loop float_repr expected_count polls monitor_init = Some st <->
    exists k : nat,
      (k <= length polls)%nat /\
      st = state_after float_repr polls k /\
      processed_count st = expected_count /\
      forall j : nat,
        (j < k)%nat ->
        processed_count (state_after float_repr polls j) <> expected_count).
  { intros st. rewrite monitor_loop_run. split.
    - intros (k & Hk & -> & Hge & Hlt). exists k.
      repeat split; [exact Hk|specialize (Hle k); unfold state_after in Hle; lia|].
      intros j Hj. specialize (Hlt j Hj). unfold state_after. lia.
    - intros (k & Hk & -> & Heq & Hne). exists k.
      repeat split; [exact Hk|lia|].
      intros j Hj. specialize (Hne j Hj). specialize (Hle j).
      unfold state_after in *. lia. }
  assert (Hfull : forall k : nat,
    Z.of_nat (size (results (state_after float_repr polls k))) = expected_count ->
    forall id, id ∈ ids -> succeeded_in (take k polls) id = true).
  { intros k Hk. eapply monitor_inv_full; [apply Hinv|lia]. }
  split; [|split; [|split; [|split; [|split]]]].
  - apply state_after_count_le.
  - exact Hret.
  - exact Hfull.
  - intros m Hm. unfold _monitor_batch_progress in Hm.
    apply fmap_Some in Hm as (st & E & ->).
    apply Hret in E as (k & _ & -> & Heq & _).
    destruct (Hinv k) as (Hcount & _).
    split; [lia|].
    intros id Hid. apply (succeeded_in_take polls k), Hfull; [lia|exact Hid].
  - intros k id text. apply (Hinv k).
  - intros k id Hnever.
    destruct (results (state_after float_repr polls k) !! id) as [text|] eqn:E;
      [|reflexivity].
    apply (Hinv k), recorded_from_succeeded in E. congruence.
Qed.

(** C8: (1) when the service answers for the [expected_count] submitted
    requests only and one of them is never reported succeeded, the loop
    is still waiting after any number of polls; (2) so it is when there
    is a request and the batch is never reported ended; (3) a run that
    returns leaves with the counter equal to [expected_count]; (4) the
    number of polls has no bound: the loop goes through any [n] polls of
    a batch in progress and, when the result arrives after them, returns
    then. *)
Theorem monitor_never_returns (expected_count : Z) :
  (forall (ids : gset string) polls id,
      Z.of_nat (size ids) = expected_count ->
      answers_within ids polls = true ->
      id ∈ ids ->
      succeeded_in polls id = false ->
      _monitor_batch_progress float_repr polls expected_count = None) /\
  (forall polls,
      0 < expected_count ->
      forallb (fun p => negb (String.eqb (Batch.processing_status p) "ended")) polls
      = true ->
      _monitor_batch_progress float_repr polls expected_count = None) /\
  (forall (ids : gset string) polls st,
      Z.of_nat (size ids) = expected_count ->
      answers_within ids polls = true ->
      monitor_loop float_repr expected_count polls monitor_init = Some st ->
      processed_count st = expected_count) /\
  (forall n : nat,
      0 < expected_count ->
      _monitor_batch_progress float_repr (repeat in_progress n) expected_count = None) /\
  (forall (n : nat) message,
      _monitor_batch_progress float_repr
        (repeat in_progress n ++ [ended [succeeded_entry "calculation_0" message]]) 1
      = Some {[ "calculation_0" := _process_tool_use float_repr message ]}).
Proof.
  assert (Hwait : forall polls,
    0 < expected_count ->
    forallb (fun p => negb (String.eqb (Batch.processing_status p) "ended")) polls
    = true ->
    _monitor_batch_progress float_repr polls expected_count = None).
  { intros polls Hpos Hne. unfold _monitor_batch_progress.
    rewrite monitor_loop_waits; [reflexivity|].
    intros k _. rewrite run_not_ended by now apply not_ended_take.
    exact Hpos. }
  split; [|split; [|split; [|split]]].
  - intros ids polls id Hsize Hans Hid Hnever. unfold _monitor_batch_progress.
    rewrite monitor_loop_waits; [reflexivity|].
    intros k _. rewrite <- Hsize.
    apply (monitor_inv_missing ids (take k polls) _ id);
      [now apply state_after_inv|exact Hid|].
    destruct (succeeded_in (take k polls) id) eqn:E; [|reflexivity].
    apply succeeded_in_take in E. congruence.
  - exact Hwait.
  - intros ids polls st Hsize Hans Hret.
    apply monitor_loop_run in Hret as (k & _ & -> & Hge & _).
    pose proof (monitor_inv_count_le ids _ _ (state_after_inv ids polls k Hans)) as Hle.
    unfold state_after in Hle. lia.
  - intros n Hpos. apply Hwait; [exact Hpos|apply not_ended_repeat].
  - intros n message. unfold _monitor_batch_progress.
    induction n as [|n IH]; [|exact IH].
    simpl. unfold poll_iteration, record_result. simpl.
    rewrite lookup_empty, bool_decide_eq_true_2 by reflexivity. simpl.
    now rewrite insert_empty.
Qed.

End Monitor.

(** Sample runs of the monitor. *)
Section MonitorSamples.

Lemma monitor_invariants_witness :
  exists m,
    _monitor_batch_progress sample_float_repr sample_polls 2 = Some m /\
    Z.of_nat (size m) = 2 /\
    forall id, id ∈ sample_ids -> succeeded_in sample_polls id = true.
Proof.
  eexists. split; [vm_compute; reflexivity|].
  apply (proj1 (proj2 (proj2 (proj2
           (monitor_invariants sample_float_repr sample_ids 2 sample_polls
              eq_refl eq_refl))))).
  vm_compute. reflexivity.
Defined.

Lemma monitor_never_returns_witness :
  _monitor_batch_progress sample_float_repr sample_polls_stuck 2 = None.
Proof.
  apply (proj1 (monitor_never_returns sample_float_repr 2)
           sample_ids sample_polls_stuck "calculation_1").
  - reflexivity.
  - reflexivity.
  - apply (bool_decide_unpack _). vm_compute. exact I.
  - reflexivity.
Defined.

End MonitorSamples.

(** ** The monitor's map, entry by entry *)

Section MonitorContents.

Variable float_repr : float -> string.

Lemma run_entries polls :
  forall st,
    run float_repr polls st = fold_left (record_result float_repr) (entries_seen polls) st.
Proof.
  unfold run. induction polls as [|p polls IH]; intros st; simpl; [reflexivity|].
  rewrite fold_left_app, IH. unfold poll_iteration.
  now destruct (String.eqb _ _).
Qed.

Lemma record_result_lookup st r id :
  results (record_result float_repr st r) !! id =
  match results st !! id with
  | Some text => Some text
  | None => if is_succeeded_for id r then Some (answer_to float_repr r) else None
  end.
Proof.
  unfold record_result, is_succeeded_for, answer_to.
  destruct (String.eqb (Batch.custom_id r) id) eqn:Eid.
  - apply String.eqb_eq in Eid. subst id.
    destruct (results st !! Batch.custom_id r) as [text|] eqn:E.
    + rewrite bool_decide_eq_false_2 by discriminate. simpl. exact E.
    + rewrite bool_decide_eq_true_2 by reflexivity. simpl.
      destruct (String.eqb _ "succeeded"); simpl; [apply lookup_insert_eq|exact E].
  - apply String.eqb_neq in Eid. simpl.
    destruct (bool_decide _ && _); simpl.
    + rewrite lookup_insert_ne by exact Eid. now destruct (results st !! id).
    + now destruct (results st !! id).
Qed.

Lemma fold_record_lookup entries :
  forall st id,
    results (fold_left (record_result float_repr) entries st) !! id =
    match results st !! id with
    | Some text => Some text
    | None => answer_to float_repr <$> find (is_succeeded_for id) entries
    end.
Proof.
  induction entries as [|r entries IH]; intros st id; simpl.
  - now destruct (results st !! id).
  - rewrite IH, record_result_lookup.
    destruct (results st !! id); [reflexivity|].
    now destruct (is_succeeded_for id r).
Qed.

Lemma record_result_count_size st r :
  processed_count st = Z.of_nat (size (results st)) ->
  processed_count (record_result float_repr st r) =
  Z.of_nat (size (results (record_result float_repr st r))).
Proof.
  intros H. unfold record_result.
  destruct (bool_decide _) eqn:Hnew; simpl; [|exact H].
  destruct (String.eqb _ _); simpl; [|exact H].
  apply bool_decide_eq_true in Hnew.
  rewrite (map_size_insert_None _ _ _ Hnew). lia.
Qed.

Lemma fold_record_count_size entries :
  forall st,
    processed_count st = Z.of_nat (size (results st)) ->
    processed_count (fold_left (record_result float_repr) entries st) =
    Z.of_nat (size (results (fold_left (record_result float_repr) entries st))).
Proof.
  induction entries as [|r entries IH]; intros st H; simpl; [exact H|].
  apply IH, record_result_count_size, H.
Qed.

Lemma run_count_size polls :
  processed_count (run float_repr polls monitor_init) =
  Z.of_nat (size (results (run float_repr polls monitor_init))).
Proof. rewrite run_entries. now apply fold_record_count_size. Qed.

Lemma run_lookup polls st id :
  results (run float_repr polls st) !! id =
  match results st !! id with
  | Some text => Some text
  | None => answer_to float_repr <$> find (is_succeeded_for id) (entries_seen polls)
  end.
Proof. rewrite run_entries. apply fold_record_lookup. Qed.

(** A state that has gone through [entries] has an entry for each of their
    succeeded results, and going through them again changes nothing. *)
Lemma fold_record_fixed entries :
  forall st,
    (forall r, In r entries ->
               Batch.type (Batch.result r) = "succeeded" ->
               results st !! Batch.custom_id r <> None) ->
    fold_left (record_result float_repr) entries st = st.
Proof.
  induction entries as [|r entries IH]; intros st H; simpl; [reflexivity|].
  assert (Hr : record_result float_repr st r = st).
  { unfold record_result.
    destruct (bool_decide _) eqn:Hnew; simpl; [|reflexivity].
    destruct (String.eqb _ _) eqn:Hok; simpl; [|reflexivity].
    apply bool_decide_eq_true in Hnew. apply String.eqb_eq in Hok.
    exfalso. apply (H r); [now left|exact Hok|exact Hnew]. }
  rewrite Hr. apply IH. intros r' Hr'. apply H. now right.
Qed.

Lemma entries_seen_app polls1 polls2 :
  entries_seen (polls1 ++ polls2) = entries_seen polls1 ++ entries_seen polls2.
Proof. apply flat_map_app. Qed.

Lemma find_is_succeeded_In id entries r :
  In r entries ->
  Batch.custom_id r = id ->
  Batch.type (Batch.result r) = "succeeded" ->
  find (is_succeeded_for id) entries <> None.
Proof.
  intros Hin Hid Hok H.
  apply (find_none _ _ H) in Hin. unfold is_succeeded_for in Hin.
  now rewrite Hid, Hok, !String.eqb_refl in Hin.
Qed.

(** X1: after [k] iterations, against any answers of the service, the map
    holds under each custom id the dispatcher's answer to the first
    succeeded result for that id that the loop enumerated, and nothing
    under an id without one; the counter is the number of entries. *)
Theorem monitor_map_contents (polls : list Batch.poll) (k : nat) :
  (forall id,
      results (state_after float_repr polls k) !! id =
      answer_to float_repr <$> first_succeeded (take k polls) id) /\
  processed_count (state_after float_repr polls k) =
  Z.of_nat (size (results (state_after float_repr polls k))).
Proof.
  unfold state_after. split.
  - intros id. rewrite run_lookup. reflexivity.
  - apply run_count_size.
Qed.

(** X2: an entry of the map is never overwritten or removed: what is in
    the map after [k] iterations is in it, unchanged, after any [d] more,
    whatever the later polls report for the same id. *)
Theorem monitor_results_persist (polls : list Batch.poll) (k d : nat) :
  results (state_after float_repr polls k) ⊆
  results (state_after float_repr polls (k + d)).
Proof.
  apply map_subseteq_spec. intros id text H. unfold state_after in *.
  rewrite <- (take_drop k (take (k + d) polls)), take_take, Nat.min_l by lia.
  rewrite run_app, run_lookup, H. reflexivity.
Qed.

(** X3: a poll the loop has already gone through changes neither the map
    nor the counter when the service sends it again: a retried or
    repeated enumeration is never counted twice. *)
Theorem repeated_poll_changes_nothing (before after : list Batch.poll)
  (batch_status : Batch.poll) (st : monitor_state) :
  run float_repr (before ++ batch_status :: after ++ [batch_status]) st =
  run float_repr (before ++ batch_status :: after) st.
Proof.
  replace (before ++ batch_status :: after ++ [batch_status])
    with ((before ++ batch_status :: after) ++ [batch_status])
    by now rewrite <- app_assoc.
  rewrite run_app.
  set (st' := run float_repr (before ++ batch_status :: after) st).
  unfold run at 1. simpl. unfold poll_iteration.
  destruct (String.eqb (Batch.processing_status batch_status) "ended") eqn:E;
    [|reflexivity].
  apply fold_record_fixed. intros r Hr Hok. unfold st'.
  rewrite run_lookup. destruct (results st !! Batch.custom_id r); [discriminate|].
  intros Hnone. apply fmap_None in Hnone. revert Hnone.
  apply (find_is_succeeded_In _ _ r); [|reflexivity|exact Hok].
  rewrite entries_seen_app. apply in_or_app. right. simpl. rewrite E.
  apply in_or_app. now left.
Qed.

(** X5: against any answers of the service and for any [expected_count],
    a map that [_monitor_batch_progress] returns is the map after some
    number [k] of iterations, it has at least [expected_count] entries,
    and it is the first one that has: after fewer iterations the map was
    short of [expected_count]. A count of zero or less returns the empty
    map without a poll. *)
Theorem monitor_returns_first_full_map (expected_count : Z) (polls : list Batch.poll) :
  (forall m,
      _monitor_batch_progress float_repr polls expected_count = Some m <->
      exists k : nat,
        (k <= length polls)%nat /\
        m = results (state_after float_repr polls k) /\
        expected_count <= Z.of_nat (size m) /\
        forall j : nat,
          (j < k)%nat ->
          Z.of_nat (size (results (state_after float_repr polls j))) < expected_count) /\
  (expected_count <= 0 ->
   _monitor_batch_progress float_repr polls expected_count = Some ∅).
Proof.
  split.
  - intros m. unfold _monitor_batch_progress. rewrite fmap_Some. split.
    + intros (st & Hloop & ->). apply monitor_loop_run in Hloop.
      destruct Hloop as (k & Hk & -> & Hge & Hlt). exists k.
      rewrite run_count_size in Hge.
      repeat split; [exact Hk|exact Hge|].
      intros j Hj. specialize (Hlt j Hj). now rewrite run_count_size in Hlt.
    + intros (k & Hk & -> & Hge & Hlt).
      exists (state_after float_repr polls k). split; [|reflexivity].
      apply monitor_loop_run. exists k. unfold state_after in *.
      repeat split; [exact Hk|now rewrite run_count_size|].
      intros j Hj. rewrite run_count_size. apply Hlt, Hj.
  - intros Hle. unfold _monitor_batch_progress.
    destruct polls; simpl;
      (destruct (0 <? expected_count) eqn:G; [apply Z.ltb_lt in G; lia|reflexivity]).
Qed.

End MonitorContents.

(** Sample runs for the properties of the map. *)
Section MonitorContentsSamples.

Lemma monitor_returns_first_full_map_witness :
  _monitor_batch_progress sample_float_repr sample_polls_repeated 0 = Some ∅.
Proof.
  apply (proj2 (monitor_returns_first_full_map sample_float_repr 0 sample_polls_repeated)).
  lia.
Defined.

End MonitorContentsSamples.

(** ** Which exception the calculator raises *)

Section CalculatorExceptions.

Lemma float_of_int_raises z e : float_of_int z = Raise e -> is_overflow e = true.
Proof.
  unfold float_of_int. destruct (binary_normalize _ _ _ _ _); intros [= <-]; reflexivity.
Qed.

Lemma to_double_raises x e :
  to_double x = Raise e -> is_overflow e = true /\ is_float x = false.
Proof.
  destruct x as [z|f]; simpl; [|discriminate].
  intros H. split; [eapply float_of_int_raises, H|reflexivity].
Qed.

Lemma float_binop_raises op x y e :
  float_binop op x y = Raise e -> is_overflow e = true.
Proof.
  unfold float_binop. destruct (to_double x) as [a|e1] eqn:Ex; simpl.
  - destruct (to_double y) as [b|e2] eqn:Ey; simpl; [discriminate|].
    intros [= <-]. eapply to_double_raises, Ey.
  - intros [= <-]. eapply to_double_raises, Ex.
Qed.

Lemma add_raises x y e : add x y = Raise e -> is_overflow e = true.
Proof. destruct x, y; simpl; try discriminate; apply float_binop_raises. Qed.

Lemma sub_raises x y e : sub x y = Raise e -> is_overflow e = true.
Proof. destruct x, y; simpl; try discriminate; apply float_binop_raises. Qed.

Lemma mul_raises x y e : mul x y = Raise e -> is_overflow e = true.
Proof. destruct x, y; simpl; try discriminate; apply float_binop_raises. Qed.

Lemma truediv_raises x y e : truediv x y = Raise e -> is_arithmetic e = true.
Proof.
  assert (Hmixed : forall x y,
    (do a <- to_double x; do b <- to_double y;
     if (b =? 0)%float then Raise (ZeroDivisionError "float division by zero")
     else Ok (PFloat (a / b))) = Raise e -> is_arithmetic e = true).
  { clear. intros x y. destruct (to_double x) as [a|e1] eqn:Ex; simpl.
    - destruct (to_double y) as [b|e2] eqn:Ey; simpl.
      + destruct (b =? 0)%float; [|discriminate]. now intros [= <-].
      + intros [= <-]. apply to_double_raises in Ey as [Ho _]. now destruct e2.
    - intros [= <-]. apply to_double_raises in Ex as [Ho _]. now destruct e1. }
  destruct x as [a|f], y as [b|g]; try apply Hmixed.
  simpl. destruct (b =? 0); [now intros [= <-]|].
  destruct (int_true_divide a b); intros [= <-]; reflexivity.
Qed.

Lemma for_each_raises (P : exn -> Prop) body
  (Hbody : forall x y e, body x y = Raise e -> P e) (l : list num) :
  forall a e, for_each body a l = Raise e -> P e.
Proof.
  induction l as [|x l IH]; intros a e; simpl; [discriminate|].
  destruct (body a x) as [r|e1] eqn:E; simpl.
  - apply IH.
  - intros [= <-]. eapply Hbody, E.
Qed.

Lemma no_float_ints (l : list num) :
  existsb is_float l = false -> exists zs, l = map PInt zs.
Proof.
  induction l as [|[z|f] l IH]; simpl; intros H.
  - now exists [].
  - destruct (IH H) as [zs ->]. now exists (z :: zs).
  - discriminate.
Qed.

Lemma supported_cases operation :
  supported operation = true ->
  operation = "add" \/ operation = "subtract" \/ operation = "multiply" \/
  operation = "divide".
Proof.
  unfold supported. intros H.
  repeat (apply orb_prop in H; destruct H as [H|H]);
    apply String.eqb_eq in H; auto.
Qed.

(** Of a supported operation the only exceptions are the failed
    [numbers[0]] and those of the arithmetic. *)
Lemma perform_supported_raises operation numbers e :
  supported operation = true ->
  _perform_calculation operation numbers = Raise e ->
  e = IndexError "list index out of range" \/ is_arithmetic e = true.
Proof.
  assert (Hov : forall e, is_overflow e = true -> is_arithmetic e = true)
    by (now intros []).
  intros Hs. destruct (supported_cases _ Hs) as [-> | [-> | [-> | ->]]].
  - rewrite perform_add. intros H. right.
    apply Hov. revert H. apply (for_each_raises (fun e => is_overflow e = true) _ add_raises).
  - rewrite perform_subtract. destruct numbers as [|first rest]; simpl.
    + intros [= <-]. now left.
    + destruct (sum rest) as [s|e1] eqn:Es; simpl.
      * intros H. right. eapply Hov, sub_raises, H.
      * intros [= <-]. right. apply Hov. revert Es.
        apply (for_each_raises (fun e => is_overflow e = true) _ add_raises).
  - rewrite perform_multiply. intros H. right.
    apply Hov. revert H. apply (for_each_raises (fun e => is_overflow e = true) _ mul_raises).
  - rewrite perform_divide. destruct numbers as [|first rest]; simpl.
    + intros [= <-]. now left.
    + intros H. right. revert H. apply (for_each_raises (fun e => is_arithmetic e = true) _ truediv_raises).
Qed.

(** X6: what an exception of [_perform_calculation] says about the call.
    A [ValueError] means an operation outside the four names and carries
    "Unsupported operation: <name>"; an [IndexError] means [subtract] or
    [divide] of the empty list; a [ZeroDivisionError] comes from [divide]
    over at least two numbers only; an [OverflowError] comes from a
    supported operation and, unless it is [divide], from a list that mixes
    in a float (integers alone are added, subtracted and multiplied
    exactly, whatever their size); a [KeyError] is never raised. *)
Theorem perform_calculation_exceptions operation numbers e :
  _perform_calculation operation numbers = Raise e ->
  match e with
  | ValueError msg =>
      supported operation = false /\
      msg = ("Unsupported operation: " ++ operation)%string
  | KeyError _ => False
  | IndexError msg =>
      (operation = "subtract" \/ operation = "divide") /\
      numbers = [] /\ msg = "list index out of range"
  | ZeroDivisionError _ => operation = "divide" /\ (2 <= length numbers)%nat
  | OverflowError _ =>
      supported operation = true /\
      (operation = "divide" \/ existsb is_float numbers = true)
  end.
Proof.
  intros H. destruct (supported operation) eqn:Hs.
  - pose proof (perform_supported_raises _ _ _ Hs H) as Hkind.
    destruct (supported_cases _ Hs) as [-> | [-> | [-> | ->]]].
    + rewrite perform_add in H.
      pose proof (for_each_raises (fun e => is_overflow e = true) _ add_raises _ _ _ H) as Ho.
      destruct e; try discriminate. split; [reflexivity|right].
      destruct (existsb is_float numbers) eqn:Ef; [reflexivity|].
      apply no_float_ints in Ef as [zs ->].
      unfold sum in H. now rewrite for_each_add_ints in H.
    + rewrite perform_subtract in H. destruct numbers as [|first rest]; simpl in H.
      * injection H as <-. repeat split. now left.
      * assert (Ho : is_overflow e = true).
        { destruct (sum rest) as [s|e1] eqn:Es; simpl in H.
          - eapply sub_raises, H.
          - injection H as <-. revert Es. apply (for_each_raises (fun e => is_overflow e = true) _ add_raises). }
        destruct e; try discriminate. split; [reflexivity|right].
        destruct (existsb is_float (first :: rest)) eqn:Ef; [reflexivity|].
        apply no_float_ints in Ef as [[|z zs] Hzs]; [discriminate|].
        injection Hzs as -> ->. unfold sum in H. now rewrite for_each_add_ints in H.
    + rewrite perform_multiply in H.
      pose proof (for_each_raises (fun e => is_overflow e = true) _ mul_raises _ _ _ H) as Ho.
      destruct e; try discriminate. split; [reflexivity|right].
      destruct (existsb is_float numbers) eqn:Ef; [reflexivity|].
      apply no_float_ints in Ef as [zs ->].
      now rewrite for_each_mul_ints in H.
    + rewrite perform_divide in H. destruct numbers as [|first rest]; simpl in H.
      * injection H as <-. repeat split. now right.
      * pose proof (for_each_raises (fun e => is_arithmetic e = true) _ truediv_raises _ _ _ H) as Ha.
        destruct e; try discriminate.
        -- split; [reflexivity|]. destruct rest; [discriminate|simpl; lia].
        -- split; [reflexivity|now left].
  - rewrite (perform_unsupported _ _ Hs) in H. injection H as <-.
    split; reflexivity.
Qed.

Lemma perform_calculation_exceptions_witness :
  _perform_calculation "add" [PInt (2 ^ 1024); PFloat 1]
    = Raise (OverflowError "int too large to convert to float") /\
  supported "add" = true /\
  ("add" = "divide" \/ existsb is_float [PInt (2 ^ 1024); PFloat 1] = true).
Proof.
  split; [reflexivity|].
  exact (perform_calculation_exceptions "add" [PInt (2 ^ 1024); PFloat 1]
           (OverflowError "int too large to convert to float") eq_refl).
Defined.

(** X7: the tool schema and the calculator agree on the operations: a
    name is in the [enum] of the schema the agent sends exactly when
    [_perform_calculation] never answers it with the [ValueError] of an
    unsupported operation. *)
Theorem schema_enum_is_supported operation :
  In (JString operation) (schema_enum (calculator_tool init)) <->
  forall numbers msg, _perform_calculation operation numbers <> Raise (ValueError msg).
Proof.
  change (schema_enum (calculator_tool init))
    with [JString "add"; JString "subtract"; JString "multiply"; JString "divide"].
  split.
  - intros Hin numbers msg H.
    assert (Hs : supported operation = true).
    { simpl in Hin.
      repeat (destruct Hin as [Hin|Hin]; [injection Hin as <-; reflexivity|]).
      contradiction. }
    destruct (perform_supported_raises _ _ _ Hs H); discriminate.
  - intros H. destruct (supported operation) eqn:Hs.
    + destruct (supported_cases _ Hs) as [-> | [-> | [-> | ->]]]; simpl; auto.
    + exfalso. eapply (H []), perform_unsupported, Hs.
Qed.

End CalculatorExceptions.

(** ** From the questions to the returned map *)

Section ProcessCalculations.

Variable float_repr : float -> string.

Lemma find_app_Some {A : Type} (P : A -> bool) (l1 l2 : list A) (x : A) :
  find P l1 = Some x -> find P (l1 ++ l2) = Some x.
Proof.
  induction l1 as [|a l1 IH]; simpl; [discriminate|].
  destruct (P a); [trivial|exact IH].
Qed.

Lemma first_succeeded_take polls k id r :
  first_succeeded (take k polls) id = Some r -> first_succeeded polls id = Some r.
Proof.
  unfold first_succeeded. intros H.
  rewrite <- (take_drop k polls), entries_seen_app. now apply find_app_Some.
Qed.

Lemma size_request_ids self questions :
  size (request_ids self questions) = length questions.
Proof.
  unfold request_ids. rewrite size_list_to_set by apply custom_ids_NoDup.
  now rewrite custom_ids_of_requests, length_map, length_seq.
Qed.

Lemma elem_of_request_ids self questions (i : nat) :
  (i < length questions)%nat ->
  ("calculation_" ++ str_int (Z.of_nat i))%string ∈ request_ids self questions.
Proof.
  intros Hi. unfold request_ids. rewrite elem_of_list_to_set, custom_ids_of_requests.
  apply list_elem_of_In,
    (in_map (fun i => ("calculation_" ++ str_int (Z.of_nat i))%string)), in_seq.
  lia.
Qed.

(** X8: [process_calculations], from the questions to the map. For no
    question it returns the empty map whatever the service answers. When
    the service reports results for the requests of the batch only and
    the call returns, the map has exactly the custom ids of the requests
    as keys, one per question, and under "calculation_<i>" the
    dispatcher's answer to the first succeeded result the service
    reported for that request. *)
Theorem process_calculations_answers (self : agent) :
  (forall polls, process_calculations float_repr self polls [] = Some ∅) /\
  (forall polls questions m,
      answers_within (request_ids self questions) polls = true ->
      process_calculations float_repr self polls questions = Some m ->
      dom m = request_ids self questions /\
      size m = length questions /\
      forall i : nat,
        (i < length questions)%nat ->
        exists r,
          first_succeeded polls ("calculation_" ++ str_int (Z.of_nat i)) = Some r /\
          m !! ("calculation_" ++ str_int (Z.of_nat i))%string
          = Some (answer_to float_repr r)).
Proof.
  split.
  - intros [|p polls]; reflexivity.
  - intros polls questions m Hans Hret.
    unfold process_calculations, _monitor_batch_progress in Hret.
    apply fmap_Some in Hret as (st & Hloop & ->).
    apply monitor_loop_run in Hloop as (k & _ & -> & Hge & _).
    pose proof (state_after_inv float_repr _ polls k Hans) as (Hcount & Hdom & _).
    unfold state_after in *.
    set (st := run float_repr (take k polls) monitor_init) in *.
    pose proof (size_request_ids self questions) as Hn.
    assert (Heq : dom (results st) = request_ids self questions).
    { apply set_subseteq_size_eq; [exact Hdom|]. rewrite size_dom. lia. }
    split; [exact Heq|]. split; [rewrite <- size_dom, Heq; exact Hn|].
    intros i Hi. pose proof (elem_of_request_ids self questions i Hi) as Hin.
    rewrite <- Heq in Hin. apply elem_of_dom in Hin as [text Htext].
    unfold st in Htext. rewrite run_lookup in Htext. simpl in Htext.
    rewrite lookup_empty in Htext.
    fold (first_succeeded (take k polls) ("calculation_" ++ str_int (Z.of_nat i)))
      in Htext.
    destruct (first_succeeded (take k polls) _) as [r|] eqn:Er; [|discriminate].
    exists r. split; [eapply first_succeeded_take, Er|].
    unfold st. rewrite run_lookup. simpl. rewrite lookup_empty.
    fold (first_succeeded (take k polls) ("calculation_" ++ str_int (Z.of_nat i))).
    now rewrite Er.
Qed.

(** X9: on integers the text of a result is exact. When the first tool use
    of a message asks for [add], [subtract] or [multiply] over integers
    and the exact sum, difference or product has no more digits than
    every interpreter prints, the dispatcher returns "Result: " followed
    by its decimal digits, whatever the rendering of floats; and two such
    texts are equal only for equal integers. *)
Theorem integer_results_are_exact message c (zs : list Z) :
  first_tool_use message = Some c ->
  Msg.numbers (Msg.input c) = Some (map PInt zs) ->
  (Msg.operation (Msg.input c) = Some "add" ->
   prints_everywhere (int_sum zs) ->
   _process_tool_use float_repr message = ("Result: " ++ str_int (int_sum zs))%string) /\
  (Msg.operation (Msg.input c) = Some "multiply" ->
   prints_everywhere (int_product zs) ->
   _process_tool_use float_repr message
   = ("Result: " ++ str_int (int_product zs))%string) /\
  (Msg.operation (Msg.input c) = Some "subtract" ->
   forall z zs', zs = z :: zs' ->
     prints_everywhere (z - int_sum zs') ->
     _process_tool_use float_repr message
     = ("Result: " ++ str_int (z - int_sum zs'))%string) /\
  (forall a b : Z,
      ("Result: " ++ str_int a)%string = ("Result: " ++ str_int b)%string -> a = b).
Proof.
  intros Hc Hns. rewrite (process_first_tool_use _ _ _ Hc).
  split; [|split; [|split]].
  - intros Hop _. rewrite (try_calculation_call _ _ _ _ Hop Hns), perform_add.
    unfold sum. now rewrite for_each_add_ints.
  - intros Hop _. rewrite (try_calculation_call _ _ _ _ Hop Hns), perform_multiply.
    rewrite for_each_mul_ints. simpl. do 2 f_equal. lia.
  - intros Hop z zs' -> _.
    rewrite (try_calculation_call _ _ _ _ Hop Hns), perform_subtract.
    simpl. unfold sum. now rewrite for_each_add_ints.
  - intros a b H. injection H as H. now apply str_int_inj.
Qed.

End ProcessCalculations.

(** Sample runs from the questions to the map. *)
Section ProcessCalculationsSamples.

Lemma process_calculations_answers_witness :
  exists m,
    process_calculations sample_float_repr init sample_polls sample_questions = Some m /\
    dom m = request_ids init sample_questions /\
    size m = 2%nat.
Proof.
  eexists. split; [vm_compute; reflexivity|].
  pose proof (proj2 (process_calculations_answers sample_float_repr init)
                sample_polls sample_questions _ eq_refl eq_refl) as (Hdom & Hsize & _).
  split; [exact Hdom|exact Hsize].
Defined.

Lemma integer_results_are_exact_witness :
  prints_everywhere (int_product [13; 7]) /\
  _process_tool_use sample_float_repr
    (after_text (tool_use_block (Some "multiply") (Some [PInt 13; PInt 7])))
  = "Result: 91".
Proof.
  assert (Hsmall : prints_everywhere (int_product [13; 7]))
    by (unfold prints_everywhere; vm_compute; reflexivity).
  split; [exact Hsmall|].
  exact (proj1 (proj2 (integer_results_are_exact sample_float_repr
                         (after_text (tool_use_block (Some "multiply")
                                        (Some (map PInt [13; 7]))))
                         (tool_use_block (Some "multiply") (Some (map PInt [13; 7])))
                         [13; 7] eq_refl eq_refl)) eq_refl Hsmall).
Defined.

End ProcessCalculationsSamples.

(** ** What the dispatcher's answer depends on *)

Section DispatcherInputs.

Variable float_repr : float -> string.

(** X10: the dispatcher never looks at the name of the tool or at the
    other content items: two messages whose first tool-use items carry
    the same input get the same answer, so a tool use that names another
    tool is calculated like one that names [calculate]. *)
Theorem tool_name_is_ignored message1 message2 c1 c2 :
  first_tool_use message1 = Some c1 ->
  first_tool_use message2 = Some c2 ->
  Msg.input c1 = Msg.input c2 ->
  _process_tool_use float_repr message1 = _process_tool_use float_repr message2.
Proof.
  intros H1 H2 Hin.
  rewrite (process_first_tool_use _ _ _ H1), (process_first_tool_use _ _ _ H2).
  unfold try_calculation. now rewrite Hin.
Qed.

End DispatcherInputs.

Section DispatcherInputsSamples.

Lemma tool_name_is_ignored_witness :
  _process_tool_use sample_float_repr
    {| Msg.content :=
         Some [ {| Msg.type := "tool_use"; Msg.name := "get_weather";
                   Msg.input := {| Msg.operation := Some "add";
                                   Msg.numbers := Some [PInt 25; PInt 17] |} |} ] |}
  = _process_tool_use sample_float_repr
      (after_text (tool_use_block (Some "add") (Some [PInt 25; PInt 17]))).
Proof.
  exact (tool_name_is_ignored sample_float_repr
           {| Msg.content :=
                Some [ {| Msg.type := "tool_use"; Msg.name := "get_weather";
                          Msg.input := {| Msg.operation := Some "add";
                                          Msg.numbers := Some [PInt 25; PInt 17] |} |} ] |}
           (after_text (tool_use_block (Some "add") (Some [PInt 25; PInt 17])))
           {| Msg.type := "tool_use"; Msg.name := "get_weather";
              Msg.input := {| Msg.operation := Some "add";
                              Msg.numbers := Some [PInt 25; PInt 17] |} |}
           (tool_use_block (Some "add") (Some [PInt 25; PInt 17]))
           eq_refl eq_refl eq_refl).
Defined.

End DispatcherInputsSamples.

(** ** When the monitor does return *)

Section MonitorReturns.

Variable float_repr : float -> string.

Lemma monitor_loop_None expected_count polls :
  forall st,
    monitor_loop float_repr expected_count polls st = None ->
    processed_count (run float_repr polls st) < expected_count.
Proof.
  induction polls as [|p polls IH]; intros st; simpl;
    destruct (processed_count st <? expected_count) eqn:G;
    try discriminate.
  - intros _. now apply Z.ltb_lt.
  - apply IH.
Qed.

Lemma succeeded_in_first polls id :
  succeeded_in polls id = true -> first_succeeded polls id <> None.
Proof.
  unfold succeeded_in, first_succeeded, reported_succeeded.
  rewrite existsb_exists. intros (p & Hp & H) Hnone.
  apply andb_prop in H as [Hended H]. apply existsb_exists in H as (r & Hr & H).
  assert (Hin : In r (entries_seen polls)).
  { unfold entries_seen. apply in_flat_map. exists p. split; [exact Hp|].
    now rewrite Hended. }
  apply (find_none _ _ Hnone) in Hin. unfold is_succeeded_for in Hin. congruence.
Qed.

(** X11: the monitor returns once enough requests have succeeded: if the
    polls report, with the batch ended, a succeeded result for each id of
    a set of at least [expected_count] custom ids, then
    [_monitor_batch_progress] returns on these polls, with a map of at
    least [expected_count] entries. *)
Theorem monitor_returns_when_all_succeeded (ids : gset string) (expected_count : Z)
  (polls : list Batch.poll) :
  expected_count <= Z.of_nat (size ids) ->
  (forall id, id ∈ ids -> succeeded_in polls id = true) ->
  exists m,
    _monitor_batch_progress float_repr polls expected_count = Some m /\
    expected_count <= Z.of_nat (size m).
Proof.
  intros Hsize Hall. unfold _monitor_batch_progress.
  destruct (monitor_loop float_repr expected_count polls monitor_init) as [st|] eqn:E.
  - exists (results st). split; [reflexivity|].
    apply monitor_loop_run in E as (k & _ & -> & Hge & _).
    now rewrite run_count_size in Hge.
  - exfalso. apply monitor_loop_None in E. rewrite run_count_size in E.
    assert (Hsub : ids ⊆ dom (results (run float_repr polls monitor_init))).
    { intros id Hid. apply elem_of_dom. rewrite run_lookup. simpl.
      rewrite lookup_empty. apply Hall, succeeded_in_first in Hid.
      fold (first_succeeded polls id).
      destruct (first_succeeded polls id); [eauto|contradiction]. }
    apply subseteq_size in Hsub. rewrite size_dom in Hsub. lia.
Qed.

End MonitorReturns.

Section MonitorReturnsSamples.

Lemma monitor_returns_when_all_succeeded_witness :
  exists m,
    _monitor_batch_progress sample_float_repr sample_polls 2 = Some m /\
    2 <= Z.of_nat (size m).
Proof.
  apply (monitor_returns_when_all_succeeded sample_float_repr sample_ids 2 sample_polls).
  - vm_compute. discriminate.
  - intros id Hid. unfold sample_ids in Hid.
    apply elem_of_union in Hid as [Hid|Hid]; apply elem_of_singleton in Hid;
      subst id; reflexivity.
Defined.

End MonitorReturnsSamples.
